(** * Verification of the ZDA funding wallet API (server.js)

    A shallow embedding of the request handlers of [server.js]: the list
    endpoint [GET /api/v1/cards], the detail endpoint
    [GET /api/v1/cards/:id] and the wallet enrichment
    ([fetchAddressData], [fetchWalletInfo]).

    JavaScript values are modelled by [jsval]; JavaScript numbers that
    carry money are IEEE binary64 values (Rocq's primitive [float]), so
    the arithmetic of the code is reproduced exactly.  Integral numbers on
    the pagination path are modelled by [jsint] (NaN or an integer).
    Thrown exceptions are the [Throw] case of the result type [res].
    The database ([pool.query]) and the network ([fetch]) are parameters
    of the handlers: the theorems hold for every behaviour of them. *)

From Stdlib Require Import ZArith List String Ascii Bool Lia Floats.
Import ListNotations.
Set Warnings "-register-all".
Set Warnings "-inexact-float".


(* ------------------------------------------------------------------ *)
(** ** JavaScript values *)

Inductive jsval : Type :=
| JUndef
| JNull
| JBool (b : bool)
| JNum (f : float)
| JStr (s : string)
| JArr (l : list jsval)
| JObj (fields : list (string * jsval)).

(** An exception value: every exception the modelled code can raise is an
    [Error] object ([TypeError], [SyntaxError], [Error]) with a message. *)
Record jserr : Type := JSErr { err_name : string; err_message : string }.

(** Result of a JavaScript computation that may throw. *)
Inductive res (A : Type) : Type :=
| Ok (a : A)
| Throw (e : jserr).
Arguments Ok {A} a.
Arguments Throw {A} e.

Definition bind {A B : Type} (m : res A) (k : A -> res B) : res B :=
  match m with
  | Ok a => k a
  | Throw e => Throw e
  end.

Notation "x <- m ;; k" := (bind m (fun x => k))
  (at level 61, m at next level, right associativity).

(* ------------------------------------------------------------------ *)
(** ** Characters, digits and decimal printing *)

Local Open Scope string_scope.
Local Open Scope Z_scope.

Definition is_digit (c : ascii) : bool :=
  let n := nat_of_ascii c in ((48 <=? n)%nat && (n <=? 57)%nat)%bool.

Definition digit_val (c : ascii) : Z := Z.of_nat (nat_of_ascii c) - 48.

(** Value of a hexadecimal digit (also used for bases 2 and 8). *)
Definition hex_val (c : ascii) : option Z :=
  let n := Z.of_nat (nat_of_ascii c) in
  if (48 <=? n) && (n <=? 57) then Some (n - 48)
  else if (97 <=? n) && (n <=? 102) then Some (n - 87)
  else if (65 <=? n) && (n <=? 70) then Some (n - 55)
  else None.

(** The ASCII members of ECMAScript's [StrWhiteSpaceChar] and
    [LineTerminator] (TAB, LF, VT, FF, CR, SP); the non-ASCII ones
    (NBSP, BOM, Unicode spaces, LS, PS) are outside the ASCII strings of
    this model. *)
Definition is_js_space (c : ascii) : bool :=
  match nat_of_ascii c with
  | 9%nat | 10%nat | 11%nat | 12%nat | 13%nat | 32%nat => true
  | _ => false
  end.

Fixpoint trim_start (l : list ascii) : list ascii :=
  match l with
  | c :: r => if is_js_space c then trim_start r else l
  | [] => []
  end.

Definition trim (l : list ascii) : list ascii :=
  rev (trim_start (rev (trim_start l))).

Fixpoint span_digits (l : list ascii) : list ascii * list ascii :=
  match l with
  | c :: r =>
      if is_digit c then let (d, rest) := span_digits r in (c :: d, rest)
      else ([], l)
  | [] => ([], [])
  end.

Definition digits_value (ds : list ascii) : Z :=
  fold_left (fun acc c => acc * 10 + digit_val c) ds 0.

Definition digit_char (d : Z) : ascii := ascii_of_nat (48 + Z.to_nat d).

Fixpoint dec_digits (fuel : nat) (z : Z) (acc : string) : string :=
  match fuel with
  | O => acc
  | S f =>
      if z <? 10 then String (digit_char z) acc
      else dec_digits f (z / 10) (String (digit_char (z mod 10)) acc)
  end.

(** Decimal representation of an integer, as [String(n)] prints it. *)
Definition Z_to_dec (z : Z) : string :=
  if z <? 0
  then String "-" (dec_digits (Z.to_nat (Z.log2 (- z)) + 1) (- z) EmptyString)
  else dec_digits (Z.to_nat (Z.log2 z) + 1) z EmptyString.

Fixpoint zeros (n : nat) : string :=
  match n with O => EmptyString | S k => String "0" (zeros k) end.

(* ------------------------------------------------------------------ *)
(** ** Rounding exact rationals to binary64 *)

(** Nearest integer to [a / b] ([a >= 0], [b > 0]), ties to even. *)
Definition round_half_even (a b : Z) : Z :=
  let q := a / b in
  let r := a mod b in
  match Z.compare (2 * r) b with
  | Lt => q
  | Gt => q + 1
  | Eq => if Z.even q then q else q + 1
  end.

(** [2^e <= p / q]. *)
Definition pow2_le (e p q : Z) : bool :=
  if 0 <=? e then q * 2 ^ e <=? p else q <=? p * 2 ^ (- e).

(** The binary64 value nearest to [± p / q] ([p >= 0], [q > 0]) under
    round-to-nearest-even, with gradual underflow and overflow to
    infinity: the rounding every JavaScript number conversion uses. *)
Definition binary64_of_ratio (neg : bool) (p q : Z) : float :=
  if p =? 0 then (if neg then neg_zero else zero) else
  let e0 := Z.log2 p - Z.log2 q in
  let e := if pow2_le e0 p q then e0 else e0 - 1 in
  let ex := Z.max (e - 52) (-1074) in
  let m := if 0 <=? ex then round_half_even p (q * 2 ^ ex)
           else round_half_even (p * 2 ^ (- ex)) q in
  let '(m', ex') := if m =? 2 ^ 53 then (2 ^ 52, ex + 1) else (m, ex) in
  if 1023 <? ex' + 52 then (if neg then neg_infinity else infinity)
  else if m' =? 0 then (if neg then neg_zero else zero)
  else SF2Prim (S754_finite neg (Z.to_pos m') ex').

(** [± n * 10^e] rounded to binary64. *)
Definition decimal_to_float (neg : bool) (n e : Z) : float :=
  if 0 <=? e then binary64_of_ratio neg (n * 10 ^ e) 1
  else binary64_of_ratio neg n (10 ^ (- e)).

(** Exact value of a finite float as [(negative, p, q)] with
    [|x| = p / q]; [None] for NaN and the infinities. *)
Definition float_ratio (x : float) : option (bool * Z * Z) :=
  match Prim2SF x with
  | S754_zero s => Some (s, 0, 1)
  | S754_finite s m e =>
      if 0 <=? e then Some (s, Z.pos m * 2 ^ e, 1)
      else Some (s, Z.pos m, 2 ^ (- e))
  | _ => None
  end.

(** [floor (log10 (p / q))] for [p, q > 0]. *)
Fixpoint neg_log10_search (fuel : nat) (j p q : Z) : Z :=
  match fuel with
  | O => - j
  | S f => if q <=? p * 10 ^ j then - j else neg_log10_search f (j + 1) p q
  end.

Definition floor_log10 (p q : Z) : Z :=
  if q <=? p then Z.of_nat (String.length (Z_to_dec (p / q))) - 1
  else neg_log10_search 400 1 p q.

(** [s * 10^E] as a ratio. *)
Definition scaled_ratio (s E : Z) : Z * Z :=
  if 0 <=? E then (s * 10 ^ E, 1) else (s, 10 ^ (- E)).

Definition ratio_to_float (r : Z * Z) : float :=
  binary64_of_ratio false (fst r) (snd r).

(** The digits [s] and exponent [E] with [k] significant digits whose
    value [s * 10^E] is nearest to [p / q], or its other neighbour, when
    one of them rounds back to [x]. *)
Definition digits_candidate (x : float) (p q : Z) (k : Z) : option (Z * Z) :=
  let E := floor_log10 p q + 1 - k in
  let s0 := if 0 <=? E then round_half_even p (q * 10 ^ E)
            else round_half_even (p * 10 ^ (- E)) q in
  let '(s, E') := if s0 =? 10 ^ k then (10 ^ (k - 1), E + 1) else (s0, E) in
  let below := let r := scaled_ratio s E' in fst r * q <=? p * snd r in
  let other := if below then s + 1 else s - 1 in
  if PrimFloat.eqb (ratio_to_float (scaled_ratio s E')) x then Some (s, E')
  else if (0 <? other) && PrimFloat.eqb (ratio_to_float (scaled_ratio other E')) x
  then Some (other, E')
  else None.

Fixpoint shortest_digits (fuel : nat) (k : Z) (x : float) (p q : Z)
  : Z * Z :=
  match fuel with
  | O => (round_half_even p q, 0)
  | S f =>
      match digits_candidate x p q k with
      | Some r => r
      | None => shortest_digits f (k + 1) x p q
      end
  end.

(** Drop the trailing zeros of [s] (the shortest [s] has none). *)
Fixpoint strip_zeros (fuel : nat) (s E : Z) : Z * Z :=
  match fuel with
  | O => (s, E)
  | S f => if (0 <? s) && (s mod 10 =? 0) then strip_zeros f (s / 10) (E + 1)
           else (s, E)
  end.

Definition exp_suffix (e : Z) : string :=
  String "e" (if e <? 0 then Z_to_dec e else String "+" (Z_to_dec e)).

(** ECMAScript [Number::toString(x)] for a positive finite [x] given as
    [p / q]: shortest round-tripping digits [s] ([k] of them) and [n]
    with [x ~ s * 10^(n-k)], laid out as the standard prescribes. *)
Definition positive_number_to_string (x : float) (p q : Z) : string :=
  let '(s0, E0) := shortest_digits 17 1 x p q in
  let '(s, E) := strip_zeros 20 s0 E0 in
  let ds := Z_to_dec s in
  let k := Z.of_nat (String.length ds) in
  let n := E + k in
  if (k <=? n) && (n <=? 21) then append ds (zeros (Z.to_nat (n - k)))
  else if (0 <? n) && (n <=? 21) then
    append (substring 0 (Z.to_nat n) ds)
      (String "." (substring (Z.to_nat n) (Z.to_nat (k - n)) ds))
  else if (-6 <? n) && (n <=? 0) then
    append "0." (append (zeros (Z.to_nat (- n))) ds)
  else if k =? 1 then append ds (exp_suffix (n - 1))
  else append (substring 0 1 ds)
         (String "." (append (substring 1 (Z.to_nat (k - 1)) ds)
                        (exp_suffix (n - 1)))).

(** ECMAScript [Number::toString(x)]. *)
Definition number_to_string (x : float) : string :=
  if PrimFloat.is_nan x then "NaN" else
  match float_ratio x with
  | None => if PrimFloat.ltb x zero then "-Infinity" else "Infinity"
  | Some (_, 0, _) => "0"
  | Some (neg, p, q) =>
      let body := positive_number_to_string (PrimFloat.abs x) p q in
      if neg then String "-" body else body
  end.

(** The digits of [toFixed(8)] for [p / q >= 0]: [n] is the integer
    nearest to [p / q * 10^8], the larger one on a tie, laid out with at
    least one integer digit and exactly 8 fractional digits. *)
Definition fixed8_digits (p q : Z) : string :=
  let n := (2 * p * 10 ^ 8 + q) / (2 * q) in
  let m := Z_to_dec n in
  let len := String.length m in
  let m' := if (len <=? 8)%nat then append (zeros (9 - len)) m else m in
  let len' := String.length m' in
  append (substring 0 (len' - 8) m') (String "." (substring (len' - 8) 8 m')).

(** ECMAScript [Number.prototype.toFixed(8)]; [|x| >= 10^21] and
    non-finite values fall back to [Number::toString]. *)
Definition to_fixed8 (x : float) : string :=
  match float_ratio x with
  | None => number_to_string x
  | Some (neg, p, q) =>
      let sign := if neg && negb (p =? 0) then "-" else EmptyString in
      if 10 ^ 21 * q <=? p then append sign (number_to_string (PrimFloat.abs x))
      else append sign (fixed8_digits p q)
  end.

(* ------------------------------------------------------------------ *)
(** ** Number parsing: [parseFloat], [ToNumber] on strings, [parseInt] *)

Definition is_char (n : nat) (c : ascii) : bool := Nat.eqb (nat_of_ascii c) n.

(** An unsigned [StrUnsignedDecimalLiteral] at the head of [l] (longest
    match): [Some (n, e, rest)] when its value is [n * 10^e]. *)
Definition parse_unsigned_decimal (l : list ascii)
  : option (Z * Z * list ascii) :=
  let (d1, r1) := span_digits l in
  let '(d2, r2) :=
    match r1 with
    | c :: r => if is_char 46 c then span_digits r else ([], r1)
    | [] => ([], [])
    end in
  match (d1 ++ d2)%list with
  | [] => None
  | ds =>
      let n := digits_value ds in
      let e0 := - Z.of_nat (List.length d2) in
      let exp_part :=
        match r2 with
        | c :: r =>
            if is_char 101 c || is_char 69 c then
              let '(sg, r') :=
                match r with
                | s :: r'' => if is_char 45 s then (-1, r'')
                              else if is_char 43 s then (1, r'') else (1, r)
                | [] => (1, r)
                end in
              let (d3, r3) := span_digits r' in
              match d3 with
              | [] => None
              | _ => Some (sg * digits_value d3, r3)
              end
            else None
        | [] => None
        end in
      match exp_part with
      | Some (x, r3) => Some (n, e0 + x, r3)
      | None => Some (n, e0, r2)
      end
  end.

Definition split_sign (l : list ascii) : bool * list ascii :=
  match l with
  | c :: r => if is_char 45 c then (true, r)
              else if is_char 43 c then (false, r) else (false, l)
  | [] => (false, [])
  end.

Fixpoint starts_with (p l : list ascii) : bool :=
  match p, l with
  | [], _ => true
  | a :: p', b :: l' => Ascii.eqb a b && starts_with p' l'
  | _ :: _, [] => false
  end.

Definition infinity_chars : list ascii := list_ascii_of_string "Infinity".

(** ECMAScript [parseFloat(string)] on the string [s]. *)
Definition parse_float (s : string) : float :=
  let l := trim_start (list_ascii_of_string s) in
  let (neg, l') := split_sign l in
  if starts_with infinity_chars l'
  then (if neg then neg_infinity else infinity)
  else match parse_unsigned_decimal l' with
       | Some (n, e, _) => decimal_to_float neg n e
       | None => nan
       end.

(** Digits of a [NonDecimalIntegerLiteral] in base [b]. *)
Fixpoint base_value (b : Z) (l : list ascii) (acc : Z) : option Z :=
  match l with
  | [] => Some acc
  | c :: r =>
      match hex_val c with
      | Some d => if d <? b then base_value b r (acc * b + d) else None
      | None => None
      end
  end.

Definition non_decimal (b : Z) (l : list ascii) : float :=
  match l with
  | [] => nan
  | _ => match base_value b l 0 with
         | Some v => binary64_of_ratio false v 1
         | None => nan
         end
  end.

(** ECMAScript [StringToNumber(s)], the [ToNumber] of a string. *)
Definition string_to_number (s : string) : float :=
  let l := trim (list_ascii_of_string s) in
  match l with
  | [] => zero
  | c0 :: c1 :: r =>
      if is_char 48 c0 && (is_char 120 c1 || is_char 88 c1) then non_decimal 16 r
      else if is_char 48 c0 && (is_char 111 c1 || is_char 79 c1) then non_decimal 8 r
      else if is_char 48 c0 && (is_char 98 c1 || is_char 66 c1) then non_decimal 2 r
      else
        let (neg, l') := split_sign l in
        if String.eqb (string_of_list_ascii l') "Infinity"
        then (if neg then neg_infinity else infinity)
        else match parse_unsigned_decimal l' with
             | Some (n, e, []) => decimal_to_float neg n e
             | _ => nan
             end
  | _ =>
      let (neg, l') := split_sign l in
      match parse_unsigned_decimal l' with
      | Some (n, e, []) => decimal_to_float neg n e
      | _ => nan
      end
  end.

(** Integral JavaScript numbers: NaN or an integer.  [parseInt] results
    and the pagination arithmetic stay integral.  The arithmetic on them
    ([(page - 1) * limit], [totalRows / limit]) is exact, which is what
    JavaScript computes while the operands stay below [2^53] in
    magnitude; beyond that JavaScript rounds and this model does not.
    [-0] is identified with [0] (both are falsy and print as [0]). *)
Inductive jsint : Type :=
| JNaN
| JInt (z : Z).

(** The binary64 value nearest to the integer [z] (ties to even), as an
    integer: [z] itself up to [2^53] in magnitude, above that [z] rounded
    to the [53] leading bits.  Past the binary64 range, where JavaScript
    has [±Infinity], the result is the rounded integer [±2^1024]: [jsint]
    has no infinities. *)
Definition round_binary64_int (z : Z) : Z :=
  let a := Z.abs z in
  if a <=? 2 ^ 53 then z
  else let e := Z.log2 a - 52 in
       Z.sgn z * (round_half_even a (2 ^ e) * 2 ^ e).

(** ECMAScript [parseInt(string, 10)] on the string [s]: the sign and the
    longest run of decimal digits after leading white space, as the
    nearest binary64 value. *)
Definition parse_int10 (s : string) : jsint :=
  let l := trim_start (list_ascii_of_string s) in
  let (neg, l') := split_sign l in
  match span_digits l' with
  | ([], _) => JNaN
  | (ds, _) => JInt (round_binary64_int (if neg then - digits_value ds else digits_value ds))
  end.

(* ------------------------------------------------------------------ *)
(** ** Conversions and property access on [jsval] *)

(** ECMAScript [ToString] of a value that holds no object with an own
    ["toString"] key, the values on which it cannot throw ([prim_safe]
    below; [to_string_res] is the full conversion, throwing included).
    Arrays print as [Array.prototype.join] (with [undefined] and [null]
    elements as empty strings). *)
Fixpoint js_to_string (v : jsval) : string :=
  match v with
  | JUndef => "undefined"
  | JNull => "null"
  | JBool b => if b then "true" else "false"
  | JNum f => number_to_string f
  | JStr s => s
  | JArr l =>
      concat ","
        ((fix elems (l : list jsval) : list string :=
            match l with
            | [] => []
            | (JUndef | JNull) :: r => EmptyString :: elems r
            | x :: r => js_to_string x :: elems r
            end) l)
  | JObj _ => "[object Object]"
  end.

(** ECMAScript [ToNumber] of a value that holds no object with an own
    ["toString"] key ([to_number_res] below is the full conversion);
    objects go through [ToPrimitive], which for arrays is their [join] and
    for plain objects ["[object Object]"]. *)
Definition js_to_number (v : jsval) : float :=
  match v with
  | JUndef => nan
  | JNull => zero
  | JBool b => if b then one else zero
  | JNum f => f
  | JStr s => string_to_number s
  | JArr _ => string_to_number (js_to_string v)
  | JObj _ => nan
  end.

Definition float_truthy (f : float) : bool :=
  negb (PrimFloat.is_nan f) && negb (PrimFloat.is_zero f).

(** ECMAScript [ToBoolean]. *)
Definition js_truthy (v : jsval) : bool :=
  match v with
  | JUndef | JNull => false
  | JBool b => b
  | JNum f => float_truthy f
  | JStr s => negb (String.eqb s EmptyString)
  | JArr _ | JObj _ => true
  end.

(** [a || b]. *)
Definition js_or (a b : jsval) : jsval := if js_truthy a then a else b.

Definition nat_to_float (n : nat) : float := binary64_of_ratio false (Z.of_nat n) 1.

(** A canonical array index ["0"], ["1"], ... *)
Definition array_index (k : string) : option nat :=
  let l := list_ascii_of_string k in
  match span_digits l with
  | (ds, []) =>
      match ds with
      | [] => None
      | [_] => Some (Z.to_nat (digits_value ds))
      | d :: _ :: _ => if is_char 48 d then None else Some (Z.to_nat (digits_value ds))
      end
  | _ => None
  end.

Fixpoint assoc_get (fs : list (string * jsval)) (k : string) : option jsval :=
  match fs with
  | [] => None
  | (k', v) :: r => if String.eqb k k' then Some v else assoc_get r k
  end.

Definition type_error (msg : string) : jserr := JSErr "TypeError" msg.

(** The error of [ToPrimitive] when no method gives a primitive. *)
Definition primitive_error : jserr := type_error "Cannot convert object to primitive value".

(** [OrdinaryToPrimitive] on a JSON object tries [toString] and [valueOf]
    (in either order): an own ["toString"] key holds a value that is not
    callable and is skipped, and [valueOf], own (not callable) or
    inherited (returning the object itself), gives no primitive, so the
    conversion throws; without such a key the inherited [toString] gives
    ["[object Object]"].  An array converts through [join], which
    converts each element that is not [undefined] or [null]. *)
Fixpoint to_string_res (v : jsval) : res string :=
  match v with
  | JObj fs =>
      match assoc_get fs "toString" with
      | Some _ => Throw primitive_error
      | None => Ok "[object Object]"
      end
  | JArr l =>
      ss <- (fix elems (l : list jsval) : res (list string) :=
               match l with
               | [] => Ok []
               | (JUndef | JNull) :: r => rest <- elems r ;; Ok (EmptyString :: rest)
               | x :: r => sx <- to_string_res x ;; rest <- elems r ;; Ok (sx :: rest)
               end) l ;;
      Ok (concat "," ss)
  | _ => Ok (js_to_string v)
  end.

(** ECMAScript [ToNumber] (also [ToNumeric], the operand conversion of
    [/], on JSON values): objects and arrays through [to_string_res]. *)
Definition to_number_res (v : jsval) : res float :=
  match v with
  | JObj _ | JArr _ => s <- to_string_res v ;; Ok (string_to_number s)
  | _ => Ok (js_to_number v)
  end.

(** Induction on [jsval] through the elements of arrays. *)
Section JsvalInd.
Variable P : jsval -> Prop.
Hypothesis HUndef : P JUndef.
Hypothesis HNull : P JNull.
Hypothesis HBool : forall b, P (JBool b).
Hypothesis HNum : forall f, P (JNum f).
Hypothesis HStr : forall s, P (JStr s).
Hypothesis HArr : forall l, Forall P l -> P (JArr l).
Hypothesis HObj : forall fs, P (JObj fs).

Fixpoint jsval_ind' (v : jsval) : P v :=
  match v with
  | JUndef => HUndef
  | JNull => HNull
  | JBool b => HBool b
  | JNum f => HNum f
  | JStr s => HStr s
  | JArr l =>
      HArr l ((fix go (l : list jsval) : Forall P l :=
                 match l with
                 | [] => Forall_nil P
                 | x :: r => Forall_cons x (jsval_ind' x) (go r)
                 end) l)
  | JObj fs => HObj fs
  end.
End JsvalInd.

(** No object with an own ["toString"] key inside [v]: its conversions
    do not throw. *)
Fixpoint prim_safe (v : jsval) : bool :=
  match v with
  | JObj fs => match assoc_get fs "toString" with Some _ => false | None => true end
  | JArr l =>
      (fix all (l : list jsval) : bool :=
         match l with [] => true | x :: r => prim_safe x && all r end) l
  | _ => true
  end.

(** Property read [v[k]]: throws on [undefined] and [null]; own
    properties of objects, indices and [length] of arrays and strings.
    Properties inherited from prototypes are not modelled (they are read
    as [undefined]). *)
Definition js_get (v : jsval) (k : string) : res jsval :=
  match v with
  | JUndef => Throw (type_error
      (append "Cannot read properties of undefined (reading '" (append k "')")))
  | JNull => Throw (type_error
      (append "Cannot read properties of null (reading '" (append k "')")))
  | JObj fs => Ok (match assoc_get fs k with Some x => x | None => JUndef end)
  | JArr l =>
      if String.eqb k "length" then Ok (JNum (nat_to_float (List.length l)))
      else match array_index k with
           | Some i => Ok (nth i l JUndef)
           | None => Ok JUndef
           end
  | JStr s =>
      if String.eqb k "length" then Ok (JNum (nat_to_float (String.length s)))
      else match array_index k with
           | Some i => Ok (match String.get i s with
                           | Some c => JStr (String c EmptyString)
                           | None => JUndef end)
           | None => Ok JUndef
           end
  | JBool _ | JNum _ => Ok JUndef
  end.

(** Property write on a plain object: an existing key keeps its place,
    a new key is appended, as JavaScript orders object keys. *)
Fixpoint assoc_set (fs : list (string * jsval)) (k : string) (x : jsval)
  : list (string * jsval) :=
  match fs with
  | [] => [(k, x)]
  | (k', v) :: r => if String.eqb k k' then (k', x) :: r else (k', v) :: assoc_set r k x
  end.

(** [{...v}]: the own enumerable properties of [v] as a plain object. *)
Definition js_spread (v : jsval) : list (string * jsval) :=
  match v with
  | JObj fs => fs
  | JArr l => map (fun '(i, x) => (Z_to_dec (Z.of_nat i), x)) (combine (seq 0 (List.length l)) l)
  | JStr s => map (fun '(i, c) => (Z_to_dec (Z.of_nat i), JStr (String c EmptyString)))
                  (combine (seq 0 (String.length s)) (list_ascii_of_string s))
  | _ => []
  end.

(** [data.data[addr].transactions.slice(0, 10)] on the value [v] of
    [transactions]: arrays and strings have the method; reading it from
    [undefined] or [null] throws, and on any other value (a JSON value
    carries no function) the call throws, with the message V8 builds from
    the callee expression. *)
Definition js_slice_0_10 (v : jsval) : res jsval :=
  match v with
  | JArr l => Ok (JArr (firstn 10 l))
  | JStr s => Ok (JStr (substring 0 10 s))
  | JUndef | JNull => bind (js_get v "slice") (fun _ => Ok JUndef)
  | _ => Throw (type_error "data.data[addr].transactions.slice is not a function")
  end.

(** [for (const x of v)]: arrays yield their elements, strings their
    characters; other values are not iterable. *)
Definition js_iterate (v : jsval) : res (list jsval) :=
  match v with
  | JArr l => Ok l
  | JStr s => Ok (map (fun c => JStr (String c EmptyString)) (list_ascii_of_string s))
  | _ => Throw (type_error "v is not iterable")
  end.

Definition try_catch {A : Type} (m : res A) (h : jserr -> res A) : res A :=
  match m with
  | Ok a => Ok a
  | Throw e => h e
  end.

(* ------------------------------------------------------------------ *)
(** ** The network: [fetch] *)

(** The body of a response, as [response.json()] reads it: a JSON value,
    or the error it rejects with when the text is not JSON. *)
Inductive fetch_body : Type :=
| BodyJSON (v : jsval)
| BodyInvalid (e : jserr).

Inductive fetch_outcome : Type :=
| FetchReject (e : jserr)
| FetchResponse (status : Z) (body : fetch_body).

(** The outcome of the outbound call made for the [n]-th address of a
    request (each address makes at most one) for a URL: any behaviour of
    the remote service, call by call. *)
Definition network : Type := nat -> string -> fetch_outcome.

(** [response.ok]. *)
Definition response_ok (status : Z) : bool := (200 <=? status) && (status <=? 299).

(** The URL of the template literal, from [address] converted to a string. *)
Definition address_url (address : string) : string :=
  append "https://api.blockchair.com/zcash/dashboards/address/"
    (append address "?transactions=true").

(** [fetchAddressData(address)], the call for the [n]-th address.  The template
    literal converts [address] with [ToString] before [fetch]. *)
Definition fetchAddressData (net : network) (n : nat) (address : jsval) : res jsval :=
  a <- to_string_res address ;;
  match net n (address_url a) with
  | FetchReject e => Throw e
  | FetchResponse status body =>
      if negb (response_ok status)
      then Throw (JSErr "Error" (append "HTTP error " (Z_to_dec status)))
      else match body with
           | BodyJSON data => Ok data
           | BodyInvalid e => Throw e
           end
  end.

(* ------------------------------------------------------------------ *)
(** ** [fetchWalletInfo] *)

Definition ONE_E8 : float := 100000000.

(** What the [try] block computes for one address. *)
Record address_info : Type := AddressInfo {
  ai_balance : float;
  ai_received : float;
  ai_sent : float;
  ai_transactions : jsval
}.

(** The [try] block of the loop of [fetchWalletInfo] up to the updates:
    [data.data[addr].address] (the key [addr] through [ToPropertyKey],
    that is [ToString]), the three amounts over [1e8] (each operand
    through [ToNumeric], in source order) and
    [data.data[addr].transactions.slice(0, 10)]. *)
Definition lookup_address (net : network) (n : nat) (addr : jsval) : res address_info :=
  data <- fetchAddressData net n addr ;;
  d <- js_get data "data" ;;
  key <- to_string_res addr ;;
  entry <- js_get d key ;;
  info <- js_get entry "address" ;;
  b <- js_get info "balance" ;;
  balance <- to_number_res b ;;
  r <- js_get info "received" ;;
  received <- to_number_res r ;;
  s <- js_get info "sent" ;;
  sent <- to_number_res s ;;
  d' <- js_get data "data" ;;
  key' <- to_string_res addr ;;
  entry' <- js_get d' key' ;;
  txs <- js_get entry' "transactions" ;;
  transactions <- js_slice_0_10 txs ;;
  Ok {| ai_balance := PrimFloat.div balance ONE_E8;
        ai_received := PrimFloat.div received ONE_E8;
        ai_sent := PrimFloat.div sent ONE_E8;
        ai_transactions := transactions |}.

(** An element of [results]: [{address, balance, total_received,
    total_sent, transactions}] or [{address, error}]. *)
Inductive wallet_entry : Type :=
| AddressOk (address : jsval) (balance total_received total_sent : float)
    (transactions : jsval)
| AddressError (address : jsval) (error : string).

(** The loop state: [results] and the three running totals. *)
Record wallet_state : Type := WalletState {
  ws_results : list wallet_entry;
  ws_balance : float;
  ws_received : float;
  ws_sent : float
}.

(** One iteration of [for (const addr of addresses) { try ... catch ... }]
    (the [n]-th address of the request). *)
Definition wallet_step (net : network) (n : nat) (st : wallet_state) (addr : jsval)
  : res wallet_state :=
  try_catch
    (info <- lookup_address net n addr ;;
     Ok {| ws_results := (ws_results st ++
             [AddressOk addr (ai_balance info) (ai_received info) (ai_sent info)
                (ai_transactions info)])%list;
           ws_balance := PrimFloat.add (ws_balance st) (ai_balance info);
           ws_received := PrimFloat.add (ws_received st) (ai_received info);
           ws_sent := PrimFloat.add (ws_sent st) (ai_sent info) |})
    (fun error =>
       Ok {| ws_results := (ws_results st ++ [AddressError addr (err_message error)])%list;
             ws_balance := ws_balance st;
             ws_received := ws_received st;
             ws_sent := ws_sent st |}).

Fixpoint wallet_loop (net : network) (n : nat) (addrs : list jsval) (st : wallet_state)
  : res wallet_state :=
  match addrs with
  | [] => Ok st
  | addr :: rest =>
      st' <- wallet_step net n st addr ;;
      wallet_loop net (S n) rest st'
  end.

(** The value returned by [fetchWalletInfo]:
    [{addresses: results, totals: {balance, total_received, total_sent}}]. *)
Record wallet_info : Type := WalletInfo {
  wi_addresses : list wallet_entry;
  wi_total_balance : float;
  wi_total_received : float;
  wi_total_sent : float
}.

Definition fetchWalletInfo (net : network) (addresses : jsval) : res wallet_info :=
  addrs <- js_iterate addresses ;;
  st <- wallet_loop net 0 addrs (WalletState [] zero zero zero) ;;
  Ok {| wi_addresses := ws_results st;
        wi_total_balance := ws_balance st;
        wi_total_received := ws_received st;
        wi_total_sent := ws_sent st |}.

(* ------------------------------------------------------------------ *)
(** ** The database: [pool.query] *)

(** Bound parameters of a query: the path parameter of the detail
    endpoint, raw query-string values, and numbers. *)
Inductive qval : Type :=
| QStr (s : string)
| QArr (l : list qval)
| QObj (fields : list (string * qval)).

Inductive sql_param : Type :=
| PStr (s : string)
| PQuery (v : qval)
| PNum (n : jsint).

(** [pool.query(text, values)]: the rows, or the error it rejects with. *)
Definition database : Type := string -> list sql_param -> res (list jsval).

(* ------------------------------------------------------------------ *)
(** ** [GET /api/v1/cards/:id] *)

Inductive detail_response : Type :=
| DetailNotFound                                          (* 404 *)
| DetailCard (card : jsval)                               (* res.json(card) *)
| DetailCardWallet (card : jsval) (wi : wallet_info)      (* {...card, wallet_info} *)
| DetailCardWalletError (card : jsval)                    (* {...card, wallet_info_error} *)
| DetailServerError.                                      (* 500 *)

Definition detail_sql : string :=
  "SELECT * FROM cards WHERE id = $1 AND visibility = 'PUBLIC'".

(** The handler after the card is found: the [wallet_addresses] test and
    the inner [try]/[catch] around [fetchWalletInfo]. *)
Definition respond_card (net : network) (card : jsval) : res detail_response :=
  wa <- js_get card "wallet_addresses" ;;
  if js_truthy wa then
    wa' <- js_get card "wallet_addresses" ;;
    len <- js_get wa' "length" ;;
    if PrimFloat.ltb zero (js_to_number len) then
      wa'' <- js_get card "wallet_addresses" ;;
      try_catch
        (walletInfo <- fetchWalletInfo net wa'' ;;
         Ok (DetailCardWallet card walletInfo))
        (fun _ => Ok (DetailCardWalletError card))
    else Ok (DetailCard card)
  else Ok (DetailCard card).

Definition card_detail (db : database) (net : network) (id : string) : detail_response :=
  match db detail_sql [PStr id] with
  | Throw _ => DetailServerError
  | Ok [] => DetailNotFound
  | Ok (card :: _) =>
      match respond_card net card with
      | Ok r => r
      | Throw _ => DetailServerError
      end
  end.

Definition wallet_entry_json (e : wallet_entry) : jsval :=
  match e with
  | AddressOk a b r s t =>
      JObj [("address", a); ("balance", JNum b); ("total_received", JNum r);
            ("total_sent", JNum s); ("transactions", t)]
  | AddressError a m => JObj [("address", a); ("error", JStr m)]
  end.

Definition wallet_info_json (wi : wallet_info) : jsval :=
  JObj [("addresses", JArr (map wallet_entry_json (wi_addresses wi)));
        ("totals", JObj [("balance", JNum (wi_total_balance wi));
                         ("total_received", JNum (wi_total_received wi));
                         ("total_sent", JNum (wi_total_sent wi))])].

(** Status code and JSON body sent for a detail response. *)
Definition detail_http (r : detail_response) : Z * jsval :=
  match r with
  | DetailNotFound => (404, JObj [("error", JStr "Not Found")])
  | DetailCard card => (200, card)
  | DetailCardWallet card wi =>
      (200, JObj (assoc_set (js_spread card) "wallet_info" (wallet_info_json wi)))
  | DetailCardWalletError card =>
      (200, JObj (assoc_set (js_spread card) "wallet_info_error"
                   (JStr "Failed to retrieve wallet info")))
  | DetailServerError => (500, JObj [("error", JStr "Internal server error")])
  end.

(* ------------------------------------------------------------------ *)
(** ** [GET /api/v1/cards]: inputs *)

(** [req.query]: each parameter absent ([None], [undefined]) or a value of
    the query-string parser (a string, an array or an object). *)
Record query : Type := Query {
  q_page : option qval;
  q_per_page : option qval;
  q_sort_by : option qval;
  q_sort_dir : option qval;
  q_priority : option qval;
  q_status : option qval;
  q_stage : option qval;
  q_tags : option qval
}.

Fixpoint qval_to_string (v : qval) : string :=
  match v with
  | QStr s => s
  | QArr l => concat "," ((fix elems (l : list qval) : list string :=
                            match l with
                            | [] => []
                            | x :: r => qval_to_string x :: elems r
                            end) l)
  | QObj _ => "[object Object]"
  end.

Definition qval_truthy (v : qval) : bool :=
  match v with
  | QStr s => negb (String.eqb s EmptyString)
  | _ => true
  end.

(** The string [parseInt] reads for [page] and [per_page] after the
    destructuring defaults [page = 1] and [per_page = 10]. *)
Definition page_input (q : query) : string :=
  match q_page q with None => "1" | Some v => qval_to_string v end.

Definition per_page_input (q : query) : string :=
  match q_per_page q with None => "10" | Some v => qval_to_string v end.

(** [x || 10] on a [parseInt] result: NaN and 0 are falsy. *)
Definition or_default (x : jsint) (d : Z) : Z :=
  match x with
  | JNaN => d
  | JInt z => if z =? 0 then d else z
  end.

(** [const limit = Math.min(parseInt(per_page, 10) || 10, 100)]. *)
Definition limit_of (q : query) : Z :=
  Z.min (or_default (parse_int10 (per_page_input q)) 10) 100.

(** [const offset = (parseInt(page, 10) - 1) * limit]. *)
Definition offset_of (q : query) : jsint :=
  match parse_int10 (page_input q) with
  | JNaN => JNaN
  | JInt p => JInt ((p - 1) * limit_of q)
  end.

(** [current_page: parseInt(page, 10)]. *)
Definition current_page_of (q : query) : jsint := parse_int10 (page_input q).

Definition validSortBy : list string := ["last_updated"; "priority"; "percent_funded"; "date"].
Definition validSortDir : list string := ["asc"; "desc"].

(** [valid.includes(v) ? v : fallback]; [includes] compares with
    SameValueZero, so only a string equal to a member matches. *)
Definition allow_listed (valid : list string) (v : qval) (fallback : string) : string :=
  match v with
  | QStr s => if existsb (String.eqb s) valid then s else fallback
  | _ => fallback
  end.

Definition sort_by_value (q : query) : qval :=
  match q_sort_by q with None => QStr "last_updated" | Some v => v end.

Definition sort_dir_value (q : query) : qval :=
  match q_sort_dir q with None => QStr "desc" | Some v => v end.

Definition sortBySafe (q : query) : string :=
  allow_listed validSortBy (sort_by_value q) "last_updated".

Definition sortDirSafe (q : query) : string :=
  allow_listed validSortDir (sort_dir_value q) "desc".

(** The state of the filter building: [conditions], [values], [idx]. *)
Record filter_state : Type := FilterState {
  fs_conditions : list string;
  fs_values : list qval;
  fs_idx : Z
}.

Definition placeholder (idx : Z) : string := String "$" (Z_to_dec idx).

(** [if (req.query.f) { conditions.push(pred($idx++)); values.push(req.query.f); }]. *)
Definition add_filter (v : option qval) (pred : string -> string) (st : filter_state)
  : filter_state :=
  match v with
  | Some x =>
      if qval_truthy x then
        {| fs_conditions := (fs_conditions st ++ [pred (placeholder (fs_idx st))])%list;
           fs_values := (fs_values st ++ [x])%list;
           fs_idx := fs_idx st + 1 |}
      else st
  | None => st
  end.

Definition build_filters (q : query) : filter_state :=
  let st0 := {| fs_conditions := ["visibility = 'PUBLIC'"]; fs_values := []; fs_idx := 1 |} in
  let st1 := add_filter (q_priority q) (fun p => append "priority = " p) st0 in
  let st2 := add_filter (q_status q) (fun p => append "status = " p) st1 in
  let st3 := add_filter (q_stage q) (fun p => append "stage = " p) st2 in
  add_filter (q_tags q) (fun p => append "tags && string_to_array(" (append p ", ',')")) st3.

(** [const whereClause = conditions.join(' AND ')]. *)
Definition whereClause (q : query) : string := concat " AND " (fs_conditions (build_filters q)).

Definition count_sql (w : string) : string := append "SELECT COUNT(*) FROM cards WHERE " w.

Definition page_sql (w sb sd : string) (idx : Z) : string :=
  append "SELECT * FROM cards WHERE "
    (append w (append " ORDER BY " (append sb (append " " (append sd
      (append " LIMIT " (append (placeholder idx) (append " OFFSET " (placeholder (idx + 1)))))))))).

Definition nl : string := String (ascii_of_nat 10) EmptyString.

Definition stage_funding_sql : string :=
  append nl (append "      SELECT card_id, stage, funding_requested" (append nl
    (append "      FROM card_stage_funding" (append nl "    ")))).

(* ------------------------------------------------------------------ *)
(** ** [GET /api/v1/cards]: stage funding *)

(** [stageFundingMap]: a plain object from card ids to arrays, keys in
    insertion order. *)
Definition smap : Type := list (string * list jsval).

Fixpoint smap_get (m : smap) (k : string) : option (list jsval) :=
  match m with
  | [] => None
  | (k', v) :: r => if String.eqb k k' then Some v else smap_get r k
  end.

Fixpoint smap_set (m : smap) (k : string) (v : list jsval) : smap :=
  match m with
  | [] => [(k, v)]
  | (k', v') :: r => if String.eqb k k' then (k', v) :: r else (k', v') :: smap_set r k v
  end.

(** [stageFundingMap[k] || []]: a stored array is always truthy. *)
Definition smap_group (m : smap) (k : string) : list jsval :=
  match smap_get m k with Some l => l | None => [] end.

(** The object pushed for a stage-funding row. *)
Definition stage_entry (row : jsval) : res jsval :=
  st <- js_get row "stage" ;;
  fr <- js_get row "funding_requested" ;;
  cur <- js_get row "currency" ;;
  note <- js_get row "note" ;;
  Ok (JObj [("stage", st); ("funding_requested", fr);
            ("currency", js_or cur (JStr "ZEC")); ("note", js_or note JNull)]).

(** One pass of [for (const row of stageFundingResult.rows)]. *)
Definition add_stage_row (m : smap) (row : jsval) : res smap :=
  cid <- js_get row "card_id" ;;
  let k := js_to_string cid in
  let m1 := match smap_get m k with Some _ => m | None => smap_set m k [] end in
  cid' <- js_get row "card_id" ;;
  let k' := js_to_string cid' in
  e <- stage_entry row ;;
  Ok (smap_set m1 k' (smap_group m1 k' ++ [e])%list).

Fixpoint build_stage_map (m : smap) (rows : list jsval) : res smap :=
  match rows with
  | [] => Ok m
  | row :: rest => m' <- add_stage_row m row ;; build_stage_map m' rest
  end.

(** [(sum, s) => sum + parseFloat(s.funding_requested || 0)] folded from
    [0]. *)
Fixpoint sum_requested (acc : float) (entries : list jsval) : res float :=
  match entries with
  | [] => Ok acc
  | s :: rest =>
      fr <- js_get s "funding_requested" ;;
      sum_requested
        (PrimFloat.add acc (parse_float (js_to_string (js_or fr (JNum zero))))) rest
  end.

(** The [result.rows.map(card => ...)] callback. *)
Definition attach_card (m : smap) (card : jsval) : res jsval :=
  id <- js_get card "id" ;;
  let stageEntries := smap_group m (js_to_string id) in
  total <- sum_requested zero stageEntries ;;
  let totalRequested := to_fixed8 total in
  Ok (JObj (assoc_set (assoc_set (js_spread card) "stage_funding" (JArr stageEntries))
              "total_funding_requested" (JStr totalRequested))).

Fixpoint map_res {A B : Type} (f : A -> res B) (l : list A) : res (list B) :=
  match l with
  | [] => Ok []
  | x :: r => y <- f x ;; ys <- map_res f r ;; Ok (y :: ys)
  end.

(** The in-process join: build [stageFundingMap] from all stage-funding
    rows, then attach to each card of the page. *)
Definition attach_stage_funding (stage_rows cards : list jsval) : res (list jsval) :=
  m <- build_stage_map [] stage_rows ;;
  map_res (attach_card m) cards.

(* ------------------------------------------------------------------ *)
(** ** [GET /api/v1/cards]: the handler *)

Inductive list_response : Type :=
| ListPage (current_page : jsint) (per_page : Z) (total_pages : jsint) (cards : list jsval)
| ListServerError.

(** [Math.ceil(totalRows / limit)] ([limit] is never 0). *)
Definition ceil_div (n : jsint) (l : Z) : jsint :=
  match n with
  | JNaN => JNaN
  | JInt a => JInt (- ((- a) / l))
  end.

(** [parseInt(totalResult.rows[0].count, 10)] after the count query. *)
Definition total_rows_of (db : database) (q : query) : res jsint :=
  let fs := build_filters q in
  totalResult <- db (count_sql (whereClause q)) (map PQuery (fs_values fs)) ;;
  count <- js_get (nth 0 totalResult JUndef) "count" ;;
  Ok (parse_int10 (js_to_string count)).

(** The [try] block of the handler. *)
Definition list_cards_body (db : database) (q : query) : res list_response :=
  let limit := limit_of q in
  let offset := offset_of q in
  let fs := build_filters q in
  let w := whereClause q in
  totalRows <- total_rows_of db q ;;
  let totalPages := ceil_div totalRows limit in
  result <- db (page_sql w (sortBySafe q) (sortDirSafe q) (fs_idx fs))
              (map PQuery (fs_values fs) ++ [PNum (JInt limit); PNum offset])%list ;;
  stageFundingResult <- db stage_funding_sql [] ;;
  cardsWithFunding <- attach_stage_funding stageFundingResult result ;;
  Ok (ListPage (current_page_of q) limit totalPages cardsWithFunding).

Definition list_cards (db : database) (q : query) : list_response :=
  match list_cards_body db q with
  | Ok r => r
  | Throw _ => ListServerError
  end.

(* ------------------------------------------------------------------ *)
(** ** Reading the results *)

(** [v[k]] when it does not throw. *)
Definition prop (v : jsval) (k : string) : jsval :=
  match js_get v k with Ok x => x | Throw _ => JUndef end.

Definition nullish (v : jsval) : bool :=
  match v with JUndef | JNull => true | _ => false end.

Definition sliceable (v : jsval) : bool :=
  match v with JArr _ | JStr _ => true | _ => false end.

Definition sliced (v : jsval) : jsval :=
  match v with
  | JArr l => JArr (firstn 10 l)
  | JStr s => JStr (substring 0 10 s)
  | _ => v
  end.

(** The shape of a dashboard response that [lookup_address] reads
    without throwing: [data], [data.data], [data.data[key]] and its
    [address] are neither [undefined] nor [null], its [balance],
    [received] and [sent] convert to numbers without throwing
    ([prim_safe]), and its [transactions] has a [slice] method (an array
    or a string). *)
Definition dashboard_readable (data : jsval) (key : string) : bool :=
  let d := prop data "data" in
  let entry := prop d key in
  let info := prop entry "address" in
  negb (nullish data) && negb (nullish d) && negb (nullish entry)
  && negb (nullish info)
  && prim_safe (prop info "balance") && prim_safe (prop info "received")
  && prim_safe (prop info "sent")
  && sliceable (prop entry "transactions").

(** The structure of a dashboard response as the spec describes it:
    [data.data[key].address] holds numeric [balance], [received] and
    [sent], and [data.data[key].transactions] is an array. *)
Definition is_number (v : jsval) : bool := match v with JNum _ => true | _ => false end.
Definition is_array (v : jsval) : bool := match v with JArr _ => true | _ => false end.

Definition expected_structure (data : jsval) (key : string) : bool :=
  let entry := prop (prop data "data") key in
  let info := prop entry "address" in
  is_number (prop info "balance") && is_number (prop info "received")
  && is_number (prop info "sent") && is_array (prop entry "transactions").

(** The entry of [results] for the [n]-th address. *)
Definition address_result (net : network) (n : nat) (addr : jsval) : wallet_entry :=
  match lookup_address net n addr with
  | Ok i => AddressOk addr (ai_balance i) (ai_received i) (ai_sent i) (ai_transactions i)
  | Throw e => AddressError addr (err_message e)
  end.

Fixpoint address_results (net : network) (n : nat) (addrs : list jsval) : list wallet_entry :=
  match addrs with
  | [] => []
  | a :: r => address_result net n a :: address_results net (S n) r
  end.

(** The lookups that succeeded, in input order. *)
Fixpoint succeeded (net : network) (n : nat) (addrs : list jsval) : list address_info :=
  match addrs with
  | [] => []
  | a :: r =>
      match lookup_address net n a with
      | Ok i => i :: succeeded net (S n) r
      | Throw _ => succeeded net (S n) r
      end
  end.

(** The floating-point sum [((0 + x1) + x2) + ...] in list order. *)
Definition float_sum (xs : list float) : float := fold_left PrimFloat.add xs zero.

(** [c = ceil (a / l)] for [l <> 0]. *)
Definition is_ceil_ratio (a l c : Z) : Prop :=
  (0 < l /\ l * (c - 1) < a <= l * c) \/ (l < 0 /\ l * c <= a < l * (c - 1)).

(** A database whose count query and page query see the same rows:
    when the count under a [WHERE] clause is 0, the page query under
    the same clause and values returns no row. *)
Definition count_zero_means_empty (db : database) : Prop :=
  forall w vals rows c sb sd idx extra page_rows,
    db (count_sql w) vals = Ok rows ->
    js_get (nth 0 rows JUndef) "count" = Ok c ->
    parse_int10 (js_to_string c) = JInt 0 ->
    db (page_sql w sb sd idx) (vals ++ extra)%list = Ok page_rows ->
    page_rows = [].

(** Which filters the code finds present ([if (req.query.f)]). *)
Definition filter_given (v : option qval) : bool :=
  match v with Some x => qval_truthy x | None => false end.

Definition filter_presence (q : query) : list bool :=
  map filter_given [q_priority q; q_status q; q_stage q; q_tags q].

Definition given_values (q : query) : list qval :=
  flat_map (fun v => match v with Some x => if qval_truthy x then [x] else [] | None => [] end)
    [q_priority q; q_status q; q_stage q; q_tags q].

Definition with_sort_by (q : query) (v : option qval) : query :=
  Query (q_page q) (q_per_page q) v (q_sort_dir q)
    (q_priority q) (q_status q) (q_stage q) (q_tags q).

Definition with_sort_dir (q : query) (v : option qval) : query :=
  Query (q_page q) (q_per_page q) (q_sort_by q) v
    (q_priority q) (q_status q) (q_stage q) (q_tags q).

Definition sort_by_recognised (q : query) : bool :=
  match sort_by_value q with QStr s => existsb (String.eqb s) validSortBy | _ => false end.

Definition sort_dir_recognised (q : query) : bool :=
  match sort_dir_value q with QStr s => existsb (String.eqb s) validSortDir | _ => false end.

(** The stage-funding object built for a row, read without throwing. *)
Definition stage_entry_of (row : jsval) : jsval :=
  JObj [("stage", prop row "stage"); ("funding_requested", prop row "funding_requested");
        ("currency", js_or (prop row "currency") (JStr "ZEC"));
        ("note", js_or (prop row "note") JNull)].

(** The rows of a card ([row.card_id] and [card.id] name the same
    property key), in table order, as stage-funding objects. *)
Definition card_group (rows : list jsval) (k : string) : list jsval :=
  map stage_entry_of (filter (fun r => String.eqb (js_to_string (prop r "card_id")) k) rows).

Definition requested_value (e : jsval) : float :=
  parse_float (js_to_string (js_or (prop e "funding_requested") (JNum zero))).

Definition requested_sum (entries : list jsval) : float :=
  fold_left (fun acc e => PrimFloat.add acc (requested_value e)) entries zero.

Definition expected_card (rows : list jsval) (card : jsval) : jsval :=
  let g := card_group rows (js_to_string (prop card "id")) in
  JObj (assoc_set (assoc_set (js_spread card) "stage_funding" (JArr g))
          "total_funding_requested" (JStr (to_fixed8 (requested_sum g)))).

(** The total as the spec words it: the exact decimal sum of the
    (non-negative, decimal) requested amounts, with 8 fractional digits. *)
Definition decimal_ratio (s : string) : Z * Z :=
  match parse_unsigned_decimal (list_ascii_of_string s) with
  | Some (n, e, []) => if 0 <=? e then (n * 10 ^ e, 1) else (n, 10 ^ (- e))
  | _ => (0, 1)
  end.

Definition decimal_sum_fixed8 (amounts : list string) : string :=
  let '(p, q) := fold_left (fun '(p, q) s => let '(a, b) := decimal_ratio s in
                                             (p * b + a * q, q * b)) amounts (0, 1) in
  fixed8_digits p q.

(** The SQL semantics of the detail query over a table of card rows:
    the rows whose [id] is the parameter and whose [visibility] is
    ['PUBLIC']. *)
Definition row_matches (id : string) (row : jsval) : bool :=
  match prop row "id", prop row "visibility" with
  | JStr i, JStr v => String.eqb i id && String.eqb v "PUBLIC"
  | _, _ => false
  end.

Definition table_db (table : list jsval) : database :=
  fun sql ps =>
    if String.eqb sql detail_sql then
      match ps with
      | [PStr id] => Ok (filter (row_matches id) table)
      | _ => Throw (JSErr "error" "bind message has the wrong number of parameters")
      end
    else Throw (JSErr "error" "statement outside this model").

Definition id_absent (table : list jsval) (id : string) : Prop :=
  forall row, In row table -> prop row "id" <> JStr id.

Definition id_private (table : list jsval) (id : string) : Prop :=
  (exists row, In row table /\ prop row "id" = JStr id) /\
  (forall row, In row table -> prop row "id" = JStr id -> prop row "visibility" <> JStr "PUBLIC").

(* ------------------------------------------------------------------ *)
(** ** Concrete inputs *)

Definition query_of (page per_page sort_by sort_dir priority : option qval) : query :=
  Query page per_page sort_by sort_dir priority None None None.

Definition empty_query : query := query_of None None None None None.
Definition query_page (p : string) : query := query_of (Some (QStr p)) None None None None.
Definition query_per_page (p : string) : query := query_of None (Some (QStr p)) None None None.
Definition query_priority (p : string) : query := query_of None None None None (Some (QStr p)).

(** A database that answers every query with one row [{count: "0"}]. *)
Definition fixed_db : database := fun _ _ => Ok [JObj [("count", JStr "0")]].

(** A dashboard response of the address service for one address. *)
Definition dashboard (key : string) (balance received sent : float) (txs : list jsval) : jsval :=
  JObj [("data", JObj [(key, JObj [("address", JObj [("balance", JNum balance);
                                                    ("received", JNum received);
                                                    ("sent", JNum sent)]);
                                   ("transactions", JArr txs)])])].

(** The first lookup succeeds (1.5 / 2 / 0.5 in major units), every
    later one gets HTTP 500. *)
Definition net_demo : network :=
  fun n _ =>
    match n with
    | O => FetchResponse 200 (BodyJSON (dashboard "t1a" 150000000 200000000 50000000
                                          [JNum 1; JNum 2]))
    | S _ => FetchResponse 500 (BodyJSON JNull)
    end.

Definition card_demo : jsval :=
  JObj [("id", JStr "c1"); ("visibility", JStr "PUBLIC");
        ("wallet_addresses", JArr [JStr "t1a"; JStr "t1b"])].

Definition db_demo : database := fun _ _ => Ok [card_demo].

(** A table holding one private card. *)
Definition private_table : list jsval :=
  [JObj [("id", JStr "c9"); ("visibility", JStr "PRIVATE")]].

(** What [lookup_address] returns for a readable dashboard response:
    the three fields of [data.data[key].address] converted by [Number]
    and divided by [1e8], and [data.data[key].transactions] cut to ten. *)
Definition read_info (data : jsval) (key : string) : address_info :=
  let entry := prop (prop data "data") key in
  let info := prop entry "address" in
  {| ai_balance := PrimFloat.div (js_to_number (prop info "balance")) ONE_E8;
     ai_received := PrimFloat.div (js_to_number (prop info "received")) ONE_E8;
     ai_sent := PrimFloat.div (js_to_number (prop info "sent")) ONE_E8;
     ai_transactions := sliced (prop entry "transactions") |}.

(** A dashboard whose address entry has no amounts. *)
Definition dashboard_no_amounts : jsval :=
  JObj [("data", JObj [("t1x", JObj [("address", JObj []); ("transactions", JArr [])])])].

(** Call 0 answers 200 with [dashboard_no_amounts]; later calls are
    rejected (the connection fails). *)
Definition net_partial : network :=
  fun n _ =>
    match n with
    | O => FetchResponse 200 (BodyJSON dashboard_no_amounts)
    | S _ => FetchReject (JSErr "TypeError" "fetch failed")
    end.

(** Stage-funding rows as [pg] returns them ([numeric] columns arrive
    as strings), and two cards of a page. *)
Definition stage_row (card_id stage amount : string) : jsval :=
  JObj [("card_id", JStr card_id); ("stage", JStr stage); ("funding_requested", JStr amount)].

Definition stage_rows_demo : list jsval :=
  [stage_row "c1" "DESIGN" "1.5"; stage_row "c1" "DEVELOP" "2.25"].

Definition cards_demo : list jsval :=
  [JObj [("id", JStr "c1")]; JObj [("id", JStr "c2")]].

Definition stage_rows_large : list jsval :=
  [stage_row "c1" "DESIGN" "1000000000"; stage_row "c1" "DEVELOP" "0.00000001"].

(* ------------------------------------------------------------------ *)
(** ** Reading the filters, the stage rows and the detail inputs *)

(** The predicates of the four filters of the list handler, in the
    order the handler tests them. *)
Definition filter_preds : list (string -> string) :=
  [fun p => append "priority = " p; fun p => append "status = " p;
   fun p => append "stage = " p;
   fun p => append "tags && string_to_array(" (append p ", ',')")].

(** The filters the handler finds present, with their values, in order. *)
Definition given_filters (q : query) : list ((string -> string) * qval) :=
  flat_map (fun '(v, pred) =>
              match v with
              | Some x => if qval_truthy x then [(pred, x)] else []
              | None => []
              end)
    (combine [q_priority q; q_status q; q_stage q; q_tags q] filter_preds).

(** The conditions of a list of filters numbered from [$i]. *)
Fixpoint numbered_conditions (i : Z) (fs : list ((string -> string) * qval)) : list string :=
  match fs with
  | [] => []
  | (pred, _) :: r => pred (placeholder i) :: numbered_conditions (i + 1) r
  end.

(** A row of the stage-funding query: only the three selected columns. *)
Definition only_selected_columns (fs : list (string * jsval)) : bool :=
  forallb (fun '(k, _) => existsb (String.eqb k) ["card_id"; "stage"; "funding_requested"]) fs.

(** A database whose card has an empty [wallet_addresses]. *)
Definition db_no_wallet : database :=
  fun _ _ => Ok [JObj [("id", JStr "c3"); ("visibility", JStr "PUBLIC");
                       ("wallet_addresses", JArr [])]].

(** A database that rejects every query. *)
Definition db_down : database := fun _ _ => Throw (JSErr "Error" "connect ECONNREFUSED").

(* ================================================================== *)
(** * Properties *)

(** ** The WHERE clause *)

Lemma add_filter_shape (v1 v2 : option qval) (p : string -> string) (st1 st2 : filter_state) :
  filter_given v1 = filter_given v2 ->
  fs_conditions st1 = fs_conditions st2 -> fs_idx st1 = fs_idx st2 ->
  fs_conditions (add_filter v1 p st1) = fs_conditions (add_filter v2 p st2) /\
  fs_idx (add_filter v1 p st1) = fs_idx (add_filter v2 p st2).
Proof.
  intros Hg Hc Hi. unfold add_filter, filter_given in *.
  destruct v1 as [x1|], v2 as [x2|];
    try destruct (qval_truthy x1); try destruct (qval_truthy x2);
    simpl in *; try discriminate; rewrite ?Hc, ?Hi; auto.
Qed.

Lemma add_filter_values (v : option qval) (p : string -> string) (st : filter_state) :
  fs_values (add_filter v p st) =
  (fs_values st ++ match v with Some x => if qval_truthy x then [x] else [] | None => [] end)%list.
Proof.
  unfold add_filter. destruct v as [x|]; [destruct (qval_truthy x)|]; simpl;
    rewrite ?app_nil_r; reflexivity.
Qed.

Lemma add_filter_head (v : option qval) (p : string -> string) (st : filter_state) c r :
  fs_conditions st = c :: r -> exists r', fs_conditions (add_filter v p st) = c :: r'.
Proof.
  intros H. unfold add_filter. destruct v as [x|]; [destruct (qval_truthy x)|]; simpl;
    rewrite H; simpl; eauto.
Qed.

Lemma append_empty_r (s : string) : append s EmptyString = s.
Proof. induction s as [|c s IH]; simpl; [reflexivity | rewrite IH; reflexivity]. Qed.

Lemma concat_cons_prefix (sep x : string) (r : list string) :
  exists rest, concat sep (x :: r) = append x rest.
Proof.
  destruct r as [|y r].
  - exists EmptyString. simpl. rewrite append_empty_r. reflexivity.
  - eexists. reflexivity.
Qed.

Lemma build_filters_head (q : query) :
  exists r, fs_conditions (build_filters q) = "visibility = 'PUBLIC'" :: r.
Proof.
  unfold build_filters.
  edestruct (add_filter_head (q_priority q) (fun p => append "priority = " p)
               {| fs_conditions := ["visibility = 'PUBLIC'"]; fs_values := []; fs_idx := 1 |})
    as [r1 H1]; [reflexivity|].
  edestruct add_filter_head as [r2 H2]; [exact H1|].
  edestruct add_filter_head as [r3 H3]; [exact H2|].
  edestruct add_filter_head as [r4 H4]; [exact H3|].
  eexists. exact H4.
Qed.

(** C1 (as amended). Two list requests whose filters [priority],
    [status], [stage] and [tags] are given with a value the code tests
    as present (truthy: a non-empty string, or an array or object) for
    the same subset produce the same WHERE clause, hence the same count
    query and (for the same sort) the same page query text; the filter
    values go only into the bound parameter list, and the clause always
    starts with [visibility = 'PUBLIC']. *)
Theorem where_clause_presence_only (q1 q2 : query) :
  filter_presence q1 = filter_presence q2 ->
  whereClause q1 = whereClause q2 /\
  fs_idx (build_filters q1) = fs_idx (build_filters q2) /\
  count_sql (whereClause q1) = count_sql (whereClause q2) /\
  (forall sb sd, page_sql (whereClause q1) sb sd (fs_idx (build_filters q1)) =
                 page_sql (whereClause q2) sb sd (fs_idx (build_filters q2))) /\
  fs_values (build_filters q1) = given_values q1 /\
  (exists rest, whereClause q1 = append "visibility = 'PUBLIC'" rest).
Proof.
  intros Hp. unfold filter_presence in Hp. simpl in Hp.
  injection Hp as Hpr Hst Hsg Htg.
  assert (Hshape : fs_conditions (build_filters q1) = fs_conditions (build_filters q2) /\
                   fs_idx (build_filters q1) = fs_idx (build_filters q2)).
  { unfold build_filters.
    destruct (add_filter_shape _ _ (fun p => append "priority = " p)
      {| fs_conditions := ["visibility = 'PUBLIC'"]; fs_values := []; fs_idx := 1 |}
      {| fs_conditions := ["visibility = 'PUBLIC'"]; fs_values := []; fs_idx := 1 |}
      Hpr eq_refl eq_refl) as [C1 I1].
    destruct (add_filter_shape _ _ (fun p => append "status = " p) _ _ Hst C1 I1) as [C2 I2].
    destruct (add_filter_shape _ _ (fun p => append "stage = " p) _ _ Hsg C2 I2) as [C3 I3].
    exact (add_filter_shape _ _ _ _ _ Htg C3 I3). }
  destruct Hshape as [Hc Hi].
  assert (Hw : whereClause q1 = whereClause q2) by (unfold whereClause; rewrite Hc; reflexivity).
  split; [exact Hw|]. split; [exact Hi|]. split; [rewrite Hw; reflexivity|].
  split; [intros; rewrite Hw, Hi; reflexivity|].
  split.
  - unfold build_filters, given_values. rewrite !add_filter_values. simpl.
    rewrite <- !app_assoc, app_nil_r. reflexivity.
  - destruct (build_filters_head q1) as [r Hr]. unfold whereClause. rewrite Hr.
    apply concat_cons_prefix.
Qed.

Lemma where_clause_presence_only_witness :
  filter_presence (query_priority "HIGH") = filter_presence (query_priority "LOW") /\
  whereClause (query_priority "HIGH") = whereClause (query_priority "LOW").
Proof.
  split; [reflexivity|].
  exact (proj1 (where_clause_presence_only (query_priority "HIGH") (query_priority "LOW") eq_refl)).
Defined.

(** C1 (as stated) fails: [?priority=] and [?priority=HIGH] both supply
    the [priority] parameter, yet the empty value is falsy, its predicate
    is omitted, and the two WHERE clauses differ. *)
Lemma where_clause_empty_filter_counterexample :
  q_priority (query_priority "") <> None /\
  q_priority (query_priority "HIGH") <> None /\
  whereClause (query_priority "") = "visibility = 'PUBLIC'" /\
  whereClause (query_priority "HIGH") = "visibility = 'PUBLIC' AND priority = $1".
Proof. vm_compute. repeat split; discriminate || reflexivity. Qed.

(** ** Pagination inputs *)

(** C2 (code defect). [page] gets no fallback for zero, negative or
    non-numeric values, unlike [per_page] on the line above it
    ([|| 10]): [page=0] reports [current_page] 0 and binds OFFSET [-10],
    [page=-3] binds OFFSET [-40], [page=abc] yields NaN for both; only
    [page=1] gives [current_page] 1 and OFFSET 0. *)
Theorem page_input_not_defaulted :
  current_page_of (query_page "0") = JInt 0 /\ offset_of (query_page "0") = JInt (-10) /\
  current_page_of (query_page "-3") = JInt (-3) /\ offset_of (query_page "-3") = JInt (-40) /\
  current_page_of (query_page "abc") = JNaN /\ offset_of (query_page "abc") = JNaN /\
  current_page_of (query_page "1") = JInt 1 /\ offset_of (query_page "1") = JInt 0.
Proof. vm_compute. repeat split. Qed.

(** C3 (code defect). [Math.min(parseInt(per_page, 10) || 10, 100)]
    clamps from above and defaults NaN and 0, but a negative [per_page]
    is kept: [per_page=-5] gives [limit] [-5], outside [[1,100]]. *)
Theorem per_page_negative_kept :
  limit_of (query_per_page "-5") = -5 /\
  limit_of (query_per_page "500") = 100 /\
  limit_of (query_per_page "0") = 10 /\
  limit_of (query_per_page "abc") = 10.
Proof. vm_compute. repeat split. Qed.

(** ** Sorting *)

Lemma allow_listed_fallback (valid : list string) (v : qval) (fb : string) :
  match v with QStr s => existsb (String.eqb s) valid | _ => false end = false ->
  allow_listed valid v fb = fb.
Proof. destruct v as [s| |]; simpl; try reflexivity. intros H. rewrite H. reflexivity. Qed.

(** The list handler reads the sort parameters only through
    [sortBySafe] and [sortDirSafe]. *)
Lemma list_cards_sort_only (db : database) (q : query) (sb sd : option qval) :
  sortBySafe (Query (q_page q) (q_per_page q) sb sd (q_priority q) (q_status q)
                (q_stage q) (q_tags q)) = sortBySafe q ->
  sortDirSafe (Query (q_page q) (q_per_page q) sb sd (q_priority q) (q_status q)
                (q_stage q) (q_tags q)) = sortDirSafe q ->
  list_cards db (Query (q_page q) (q_per_page q) sb sd (q_priority q) (q_status q)
                   (q_stage q) (q_tags q)) = list_cards db q.
Proof.
  intros Hb Hd. unfold list_cards, list_cards_body. rewrite Hb, Hd.
  destruct q. reflexivity.
Qed.

(** C9. A [sort_by] outside [{last_updated, priority, percent_funded,
    date}] is replaced by [last_updated], and a [sort_dir] outside
    [{asc, desc}] by [desc]: the request is answered exactly as the one
    naming the fallback, whatever the database returns, so no
    unrecognised value rejects a request. *)
Theorem sort_fallbacks (db : database) (q : query) :
  (sort_by_recognised q = false ->
   sortBySafe q = "last_updated" /\
   list_cards db q = list_cards db (with_sort_by q (Some (QStr "last_updated")))) /\
  (sort_dir_recognised q = false ->
   sortDirSafe q = "desc" /\
   list_cards db q = list_cards db (with_sort_dir q (Some (QStr "desc")))).
Proof.
  split; intros H.
  - assert (Hs : sortBySafe q = "last_updated")
      by (unfold sortBySafe; apply allow_listed_fallback; exact H).
    split; [exact Hs|].
    unfold with_sort_by. symmetry. apply list_cards_sort_only; [|reflexivity].
    rewrite Hs. reflexivity.
  - assert (Hs : sortDirSafe q = "desc")
      by (unfold sortDirSafe; apply allow_listed_fallback; exact H).
    split; [exact Hs|].
    unfold with_sort_dir. symmetry. apply list_cards_sort_only; [reflexivity|].
    rewrite Hs. reflexivity.
Qed.

Lemma sort_fallbacks_witness :
  sort_by_recognised (query_of None None (Some (QStr "title")) (Some (QStr "up")) None) = false /\
  sort_dir_recognised (query_of None None (Some (QStr "title")) (Some (QStr "up")) None) = false /\
  list_cards fixed_db (query_of None None (Some (QStr "title")) (Some (QStr "up")) None) =
  list_cards fixed_db (with_sort_by (query_of None None (Some (QStr "title")) (Some (QStr "up")) None)
                         (Some (QStr "last_updated"))) /\
  sortDirSafe (query_of None None (Some (QStr "title")) (Some (QStr "up")) None) = "desc".
Proof.
  split; [reflexivity|]. split; [reflexivity|]. split.
  - exact (proj2 (proj1 (sort_fallbacks fixed_db
             (query_of None None (Some (QStr "title")) (Some (QStr "up")) None)) eq_refl)).
  - exact (proj1 (proj2 (sort_fallbacks fixed_db
             (query_of None None (Some (QStr "title")) (Some (QStr "up")) None)) eq_refl)).
Defined.

(** ** Page count *)

Lemma limit_nonzero (q : query) : limit_of q <> 0.
Proof.
  unfold limit_of, or_default.
  destruct (parse_int10 (per_page_input q)) as [|z]; [lia|].
  destruct (Z.eqb_spec z 0); lia.
Qed.

Lemma ceil_div_spec (a l : Z) : l <> 0 -> is_ceil_ratio a l (- ((- a) / l)).
Proof.
  intros Hl. unfold is_ceil_ratio.
  pose proof (Z.div_mod (- a) l Hl) as Hdm.
  destruct (Z_lt_ge_dec 0 l) as [Hpos|Hneg].
  - left. pose proof (Z.mod_pos_bound (- a) l Hpos). nia.
  - right. assert (Hn : l < 0) by lia.
    pose proof (Z.mod_neg_bound (- a) l Hn). nia.
Qed.

Lemma total_rows_of_inv (db : database) (q : query) (n : jsint) :
  total_rows_of db q = Ok n ->
  exists rows c,
    db (count_sql (whereClause q)) (map PQuery (fs_values (build_filters q))) = Ok rows /\
    js_get (nth 0 rows JUndef) "count" = Ok c /\
    n = parse_int10 (js_to_string c).
Proof.
  unfold total_rows_of.
  destruct (db (count_sql (whereClause q)) (map PQuery (fs_values (build_filters q))))
    as [rows|e] eqn:Hc; cbn [bind]; [|discriminate].
  destruct (js_get (nth 0 rows JUndef) "count") as [c|e] eqn:Hg; cbn [bind]; [|discriminate].
  intros H. injection H as <-. eauto.
Qed.

Lemma list_cards_page_inv (db : database) (q : query) cp pp tp cards :
  list_cards db q = ListPage cp pp tp cards ->
  exists n result sfr,
    total_rows_of db q = Ok n /\
    db (page_sql (whereClause q) (sortBySafe q) (sortDirSafe q) (fs_idx (build_filters q)))
       (map PQuery (fs_values (build_filters q)) ++
        [PNum (JInt (limit_of q)); PNum (offset_of q)])%list = Ok result /\
    attach_stage_funding sfr result = Ok cards /\
    cp = current_page_of q /\ pp = limit_of q /\ tp = ceil_div n (limit_of q).
Proof.
  unfold list_cards, list_cards_body.
  destruct (total_rows_of db q) as [n|e] eqn:Ht; cbn [bind]; [|discriminate].
  destruct (db (page_sql (whereClause q) (sortBySafe q) (sortDirSafe q) (fs_idx (build_filters q)))
       (map PQuery (fs_values (build_filters q)) ++
        [PNum (JInt (limit_of q)); PNum (offset_of q)])%list) as [result|e] eqn:Hp;
    cbn [bind]; [|discriminate].
  destruct (db stage_funding_sql []) as [sfr|e] eqn:Hs; cbn [bind]; [|discriminate].
  destruct (attach_stage_funding sfr result) as [cs|e] eqn:Ha; cbn [bind]; [|discriminate].
  intros H. injection H as <- <- <- <-.
  exists n, result, sfr. repeat split; assumption.
Qed.

(** C7. Whenever the list endpoint answers with a page, its
    [total_pages] is [ceil(total_rows / limit)] for the [total_rows] of
    the count query; when [total_rows] is 0, [total_pages] is 0 and,
    on a database whose count and page queries see the same rows, the
    [cards] array is empty. *)
Theorem total_pages_ceil (db : database) (q : query) cp pp tp cards :
  list_cards db q = ListPage cp pp tp cards ->
  exists n,
    total_rows_of db q = Ok n /\ pp = limit_of q /\ tp = ceil_div n pp /\
    (forall a, n = JInt a -> exists c, tp = JInt c /\ is_ceil_ratio a pp c) /\
    (n = JInt 0 -> tp = JInt 0 /\ (count_zero_means_empty db -> cards = [])).
Proof.
  intros H.
  destruct (list_cards_page_inv db q cp pp tp cards H)
    as (n & result & sfr & Ht & Hp & Ha & Hcp & Hpp & Htp).
  exists n. subst pp. split; [exact Ht|]. split; [reflexivity|]. split; [exact Htp|].
  split.
  - intros a ->. eexists. split; [exact Htp|]. apply ceil_div_spec, limit_nonzero.
  - intros ->. split; [rewrite Htp; reflexivity|].
    intros Hcons.
    destruct (total_rows_of_inv db q (JInt 0) Ht) as (rows & c & Hc & Hg & Hn).
    assert (Hr : result = []) by (eapply Hcons; eauto).
    subst result. unfold attach_stage_funding in Ha.
    destruct (build_stage_map [] sfr) as [m|e]; cbn [bind map_res] in Ha; [|discriminate].
    injection Ha as <-. reflexivity.
Qed.

Lemma total_pages_ceil_witness :
  exists cp pp tp cards,
    list_cards fixed_db empty_query = ListPage cp pp tp cards /\ tp = JInt 0.
Proof.
  destruct (list_cards fixed_db empty_query) as [cp pp tp cards|] eqn:H.
  - exists cp, pp, tp, cards. split; [reflexivity|].
    destruct (total_pages_ceil fixed_db empty_query cp pp tp cards H)
      as (n & Hn & _ & _ & _ & Hz).
    vm_compute in Hn. injection Hn as <-.
    exact (proj1 (Hz eq_refl)).
  - vm_compute in H. discriminate.
Defined.

(** ** Wallet aggregation *)

Lemma wallet_loop_spec (net : network) (addrs : list jsval) :
  forall n st,
    wallet_loop net n addrs st =
    Ok {| ws_results := (ws_results st ++ address_results net n addrs)%list;
          ws_balance := fold_left PrimFloat.add (map ai_balance (succeeded net n addrs)) (ws_balance st);
          ws_received := fold_left PrimFloat.add (map ai_received (succeeded net n addrs)) (ws_received st);
          ws_sent := fold_left PrimFloat.add (map ai_sent (succeeded net n addrs)) (ws_sent st) |}.
Proof.
  induction addrs as [|a rest IH]; intros n st.
  - simpl. rewrite app_nil_r. destruct st; reflexivity.
  - simpl. unfold wallet_step, address_result.
    destruct (lookup_address net n a) as [i|e]; cbn [bind try_catch];
      rewrite IH; simpl; rewrite <- app_assoc; reflexivity.
Qed.

Lemma address_results_length (net : network) (addrs : list jsval) :
  forall n, List.length (address_results net n addrs) = List.length addrs.
Proof. induction addrs as [|a r IH]; intros n; simpl; [reflexivity | rewrite IH; reflexivity]. Qed.

Lemma address_results_nth (net : network) (addrs : list jsval) :
  forall n i a, nth_error addrs i = Some a ->
    nth_error (address_results net n addrs) i = Some (address_result net (n + i) a).
Proof.
  induction addrs as [|b r IH]; intros n i a H.
  - destruct i; discriminate.
  - destruct i as [|i]; simpl in *.
    + injection H as <-. rewrite Nat.add_0_r. reflexivity.
    + rewrite (IH (S n) i a H). do 2 f_equal. lia.
Qed.

(** C4. For every list of addresses [fetchWalletInfo] returns one entry
    per address, in input order: entry [i] is [address_result] of
    address [i] and the [i]-th lookup only (its error message when the
    lookup throws, its full balance data otherwise), and the totals are
    the sums, from 0 in input order, over the addresses whose lookup
    succeeded. *)
Theorem fetchWalletInfo_per_address (net : network) (addrs : list jsval) :
  fetchWalletInfo net (JArr addrs) =
    Ok {| wi_addresses := address_results net 0 addrs;
          wi_total_balance := float_sum (map ai_balance (succeeded net 0 addrs));
          wi_total_received := float_sum (map ai_received (succeeded net 0 addrs));
          wi_total_sent := float_sum (map ai_sent (succeeded net 0 addrs)) |} /\
  List.length (address_results net 0 addrs) = List.length addrs /\
  (forall i a, nth_error addrs i = Some a ->
     nth_error (address_results net 0 addrs) i = Some (address_result net i a)).
Proof.
  split; [|split].
  - unfold fetchWalletInfo. cbn [js_iterate bind]. rewrite wallet_loop_spec. reflexivity.
  - apply address_results_length.
  - intros i a H. exact (address_results_nth net addrs 0 i a H).
Qed.

Lemma fetchWalletInfo_per_address_witness :
  fetchWalletInfo net_demo (JArr [JStr "t1a"; JStr "t1b"]) =
    Ok {| wi_addresses := [AddressOk (JStr "t1a") 1.5 2 0.5 (JArr [JNum 1; JNum 2]);
                           AddressError (JStr "t1b") "HTTP error 500"];
          wi_total_balance := 1.5; wi_total_received := 2; wi_total_sent := 0.5 |} /\
  nth_error (address_results net_demo 0 [JStr "t1a"; JStr "t1b"]) 1 =
    Some (AddressError (JStr "t1b") "HTTP error 500").
Proof.
  destruct (fetchWalletInfo_per_address net_demo [JStr "t1a"; JStr "t1b"]) as [H [_ Hn]].
  split.
  - rewrite H. vm_compute. reflexivity.
  - rewrite (Hn 1%nat (JStr "t1b") eq_refl). vm_compute. reflexivity.
Defined.

(** C10. [fetchWalletInfo] never throws on a list of addresses, whatever
    each lookup does (every failure is caught in the loop), so for a card
    whose [wallet_addresses] is an array the detail handler never takes
    the [wallet_info_error] branch. *)
Theorem wallet_fallback_unreachable :
  (forall (net : network) (addrs : list jsval), exists wi, fetchWalletInfo net (JArr addrs) = Ok wi) /\
  (forall (db : database) (net : network) (id : string) (card : jsval) rest addrs,
     db detail_sql [PStr id] = Ok (card :: rest) ->
     js_get card "wallet_addresses" = Ok (JArr addrs) ->
     forall c, card_detail db net id <> DetailCardWalletError c).
Proof.
  assert (Htot : forall (net : network) (addrs : list jsval),
             exists wi, fetchWalletInfo net (JArr addrs) = Ok wi).
  { intros net addrs. unfold fetchWalletInfo. cbn [js_iterate bind].
    rewrite wallet_loop_spec. eexists. reflexivity. }
  split; [exact Htot|].
  intros db net id card rest addrs Hdb Hwa c.
  unfold card_detail. rewrite Hdb. unfold respond_card. rewrite Hwa.
  cbn [bind js_truthy js_get]. simpl String.eqb. cbn iota. cbn [bind].
  destruct (PrimFloat.ltb zero (js_to_number (JNum (nat_to_float (List.length addrs))))).
  - destruct (Htot net addrs) as [wi Hwi]. rewrite Hwi.
    cbn [bind try_catch]. discriminate.
  - discriminate.
Qed.

Lemma wallet_fallback_unreachable_witness :
  card_detail db_demo net_demo "c1" <> DetailCardWalletError card_demo.
Proof.
  exact (proj2 wallet_fallback_unreachable db_demo net_demo "c1" card_demo []
           [JStr "t1a"; JStr "t1b"] eq_refl eq_refl card_demo).
Defined.

(** ** Card detail *)

Lemma row_matches_true (id : string) (row : jsval) :
  row_matches id row = true ->
  prop row "id" = JStr id /\ prop row "visibility" = JStr "PUBLIC".
Proof.
  unfold row_matches.
  destruct (prop row "id") as [| | | |i| |]; try discriminate;
  destruct (prop row "visibility") as [| | | |v| |]; try discriminate.
  intros H. apply andb_true_iff in H. destruct H as [Hi Hv].
  apply String.eqb_eq in Hi, Hv. subst. split; reflexivity.
Qed.

Lemma filter_all_false {A : Type} (f : A -> bool) (l : list A) :
  (forall x, In x l -> f x = false) -> filter f l = [].
Proof.
  induction l as [|x r IH]; intros H; simpl; [reflexivity|].
  rewrite (H x (or_introl eq_refl)). apply IH. intros y Hy. apply H. right. exact Hy.
Qed.

Lemma no_public_row_not_found (t : list jsval) (net : network) (id : string) :
  (forall row, In row t -> row_matches id row = false) ->
  card_detail (table_db t) net id = DetailNotFound.
Proof.
  intros H. unfold card_detail, table_db. rewrite String.eqb_refl.
  rewrite (filter_all_false _ _ H). reflexivity.
Qed.

(** C6. On the card table, a detail request for an id no card has and
    one for an id whose card is not PUBLIC get the same response: 404
    with body [{error: "Not Found"}]. *)
Theorem private_card_like_missing (t1 t2 : list jsval) (net1 net2 : network) (id : string) :
  id_absent t1 id -> id_private t2 id ->
  card_detail (table_db t1) net1 id = DetailNotFound /\
  card_detail (table_db t2) net2 id = DetailNotFound /\
  detail_http (card_detail (table_db t1) net1 id) =
    detail_http (card_detail (table_db t2) net2 id) /\
  detail_http (card_detail (table_db t1) net1 id) = (404, JObj [("error", JStr "Not Found")]).
Proof.
  intros Habs [_ Hpriv].
  assert (H1 : card_detail (table_db t1) net1 id = DetailNotFound).
  { apply no_public_row_not_found. intros row Hin.
    destruct (row_matches id row) eqn:Hm; [|reflexivity].
    exfalso. apply (Habs row Hin). exact (proj1 (row_matches_true id row Hm)). }
  assert (H2 : card_detail (table_db t2) net2 id = DetailNotFound).
  { apply no_public_row_not_found. intros row Hin.
    destruct (row_matches id row) eqn:Hm; [|reflexivity].
    exfalso. destruct (row_matches_true id row Hm) as [Hid Hvis].
    exact (Hpriv row Hin Hid Hvis). }
  rewrite H1, H2. repeat split; reflexivity.
Qed.

Lemma private_card_like_missing_witness :
  card_detail (table_db []) net_demo "c9" = DetailNotFound /\
  card_detail (table_db private_table) net_demo "c9" = DetailNotFound.
Proof.
  assert (Habs : id_absent [] "c9") by (intros row []).
  assert (Hpriv : id_private private_table "c9").
  { split.
    - exists (JObj [("id", JStr "c9"); ("visibility", JStr "PRIVATE")]).
      split; [left; reflexivity | reflexivity].
    - intros row [<-|[]] _ H. vm_compute in H. discriminate. }
  destruct (private_card_like_missing [] private_table net_demo net_demo "c9" Habs Hpriv)
    as [H1 [H2 _]].
  split; [exact H1 | exact H2].
Defined.

(** ** One address lookup *)

Lemma js_get_ok (v : jsval) (k : string) :
  nullish v = false -> js_get v k = Ok (prop v k).
Proof.
  intros H.
  assert (Hx : exists x, js_get v k = Ok x).
  { destruct v; try discriminate; cbn [js_get];
      repeat (match goal with |- context [if ?c then _ else _] => destruct c end
              || match goal with |- context [match ?c with Some _ => _ | None => _ end] =>
                   destruct c end);
      eexists; reflexivity. }
  destruct Hx as [x Hx]. unfold prop. rewrite Hx. reflexivity.
Qed.

Lemma js_get_nullish (v : jsval) (k : string) :
  nullish v = true -> exists e, js_get v k = Throw e.
Proof.
  intros H. destruct v; try discriminate; eexists; reflexivity.
Qed.

Lemma js_slice_ok (v : jsval) :
  sliceable v = true -> js_slice_0_10 v = Ok (sliced v).
Proof. intros H. destruct v; try discriminate; reflexivity. Qed.

Lemma js_slice_throws (v : jsval) :
  sliceable v = false -> exists e, js_slice_0_10 v = Throw e.
Proof. intros H. destruct v; try discriminate; eexists; reflexivity. Qed.

Lemma bind_throws {A B : Type} (m : res A) (k : A -> res B) :
  (exists e, m = Throw e) -> exists e, bind m k = Throw e.
Proof. intros [e He]. exists e. rewrite He. reflexivity. Qed.

Lemma to_string_res_spec (v : jsval) :
  to_string_res v = if prim_safe v then Ok (js_to_string v) else Throw primitive_error.
Proof.
  induction v as [| | b | f | s | l Hl | fs] using jsval_ind'; try reflexivity.
  - cbn [to_string_res prim_safe js_to_string].
    match goal with
    | |- bind (?F l) _ = if ?G l then Ok (concat _ (?H l)) else _ =>
        assert (Hel : forall l', Forall (fun v => to_string_res v =
                     if prim_safe v then Ok (js_to_string v) else Throw primitive_error) l' ->
                     F l' = if G l' then Ok (H l') else Throw primitive_error)
    end.
    { intros l' Hl'. induction Hl' as [|x r Hx Hr IHr]; [reflexivity|].
      destruct x; cbn [andb]; rewrite IHr; try rewrite Hx;
        try change (prim_safe JUndef) with true; try change (prim_safe JNull) with true;
        try match goal with |- context [prim_safe ?y] => destruct (prim_safe y) end;
        cbn [andb bind];
        try match goal with |- context [if ?c then _ else _] => destruct c end;
        reflexivity. }
    rewrite (Hel l Hl).
    match goal with |- context [if ?c then _ else _] => destruct c end; reflexivity.
  - cbn [to_string_res prim_safe js_to_string].
    destruct (assoc_get fs "toString"); reflexivity.
Qed.

Lemma to_number_res_spec (v : jsval) :
  to_number_res v = if prim_safe v then Ok (js_to_number v) else Throw primitive_error.
Proof.
  destruct v as [| | b | f | s | l | fs]; try reflexivity.
  - unfold to_number_res. rewrite to_string_res_spec.
    destruct (prim_safe (JArr l)); reflexivity.
  - unfold to_number_res. rewrite to_string_res_spec. cbn [prim_safe].
    destruct (assoc_get fs "toString"); [reflexivity|].
    cbn [bind js_to_string js_to_number]. reflexivity.
Qed.

(** C8. The lookup of one address (the [try] block of [fetchWalletInfo]
    around [fetchAddressData]) throws the [TypeError] of [ToPrimitive]
    when the address is an object that cannot be converted to a string;
    otherwise it throws with the rejection of [fetch], with
    ["HTTP error <status>"] on a non-2xx status, with the error of
    [response.json()] on a body that is not JSON, and on a JSON body
    exactly when it is not [dashboard_readable] ([data], [data.data],
    [data.data[addr]] or its [address] is [undefined]/[null], one of
    [balance], [received], [sent] holds an object with an own
    ["toString"] key, or [transactions] is neither an array nor a
    string); otherwise it returns [read_info]: [Number(field) / 1e8] for
    balance, received and sent, and [transactions.slice(0, 10)]. *)
Theorem lookup_address_outcome (net : network) (n : nat) (addr : jsval) :
  match to_string_res addr with
  | Throw e => lookup_address net n addr = Throw e
  | Ok key =>
      match net n (address_url key) with
      | FetchReject e => lookup_address net n addr = Throw e
      | FetchResponse st body =>
          if response_ok st then
            match body with
            | BodyInvalid e => lookup_address net n addr = Throw e
            | BodyJSON data =>
                if dashboard_readable data key
                then lookup_address net n addr = Ok (read_info data key)
                else exists e, lookup_address net n addr = Throw e
            end
          else lookup_address net n addr = Throw (JSErr "Error" (append "HTTP error " (Z_to_dec st)))
      end
  end.
Proof.
  unfold lookup_address, fetchAddressData.
  destruct (to_string_res addr) as [key|e]; cbn [bind]; [|reflexivity].
  destruct (net n (address_url key)) as [e|st [data|e]]; [reflexivity| |];
    destruct (response_ok st); cbn [negb bind]; try reflexivity.
  unfold dashboard_readable, read_info.
  destruct (nullish data) eqn:H1; cbn [negb andb].
  { apply bind_throws, js_get_nullish, H1. }
  rewrite (js_get_ok _ _ H1). cbn [bind].
  destruct (nullish (prop data "data")) eqn:H2; cbn [negb andb].
  { apply bind_throws, js_get_nullish, H2. }
  rewrite (js_get_ok _ _ H2). cbn [bind].
  destruct (nullish (prop (prop data "data") key)) eqn:H3; cbn [negb andb].
  { apply bind_throws, js_get_nullish, H3. }
  rewrite (js_get_ok _ _ H3). cbn [bind].
  destruct (nullish (prop (prop (prop data "data") key) "address")) eqn:H4;
    cbn [negb andb].
  { apply bind_throws, js_get_nullish, H4. }
  rewrite (js_get_ok _ "balance" H4). cbn [bind].
  rewrite to_number_res_spec.
  destruct (prim_safe (prop (prop (prop (prop data "data") key) "address") "balance"));
    cbn [andb bind]; [|eexists; reflexivity].
  rewrite (js_get_ok _ "received" H4). cbn [bind].
  rewrite to_number_res_spec.
  destruct (prim_safe (prop (prop (prop (prop data "data") key) "address") "received"));
    cbn [andb bind]; [|eexists; reflexivity].
  rewrite (js_get_ok _ "sent" H4). cbn [bind].
  rewrite to_number_res_spec.
  destruct (prim_safe (prop (prop (prop (prop data "data") key) "address") "sent"));
    cbn [andb bind]; [|eexists; reflexivity].
  rewrite (js_get_ok _ "transactions" H3). cbn [bind].
  destruct (sliceable (prop (prop (prop data "data") key) "transactions")) eqn:H5.
  - rewrite (js_slice_ok _ H5). reflexivity.
  - apply bind_throws, js_slice_throws, H5.
Qed.

(** C8 fails as stated: a response of status 200 whose address entry
    has no numeric amounts (not the expected structure) is accepted and
    yields NaN amounts, and a rejected [fetch] (neither a non-success
    status nor a parse failure) makes the lookup fail. *)
Lemma lookup_address_counterexample :
  expected_structure dashboard_no_amounts "t1x" = false /\
  lookup_address net_partial 0 (JStr "t1x") = Ok (read_info dashboard_no_amounts "t1x") /\
  PrimFloat.is_nan (ai_balance (read_info dashboard_no_amounts "t1x")) = true /\
  lookup_address net_partial 1 (JStr "t1x") = Throw (JSErr "TypeError" "fetch failed").
Proof. vm_compute. repeat split; reflexivity. Qed.

(** ** Stage funding *)

Lemma smap_get_set (m : smap) (k k' : string) (v : list jsval) :
  smap_get (smap_set m k v) k' = if String.eqb k' k then Some v else smap_get m k'.
Proof.
  induction m as [|[k0 v0] r IH]; simpl.
  - destruct (String.eqb k' k); reflexivity.
  - destruct (String.eqb k k0) eqn:E.
    + apply String.eqb_eq in E. subst k0. simpl.
      destruct (String.eqb k' k); reflexivity.
    + simpl. rewrite IH.
      destruct (String.eqb k' k0) eqn:E'; [|reflexivity].
      apply String.eqb_eq in E'. subst k'.
      rewrite String.eqb_sym, E. reflexivity.
Qed.

Lemma smap_group_set (m : smap) (k k' : string) (v : list jsval) :
  smap_group (smap_set m k v) k' = if String.eqb k' k then v else smap_group m k'.
Proof.
  unfold smap_group. rewrite smap_get_set. destruct (String.eqb k' k); reflexivity.
Qed.

Lemma stage_entry_obj (fs : list (string * jsval)) :
  stage_entry (JObj fs) = Ok (stage_entry_of (JObj fs)).
Proof. reflexivity. Qed.

Lemma add_stage_row_obj (m : smap) (fs : list (string * jsval)) :
  exists m', add_stage_row m (JObj fs) = Ok m' /\
  forall k, smap_group m' k =
    if String.eqb k (js_to_string (prop (JObj fs) "card_id"))
    then (smap_group m k ++ [stage_entry_of (JObj fs)])%list
    else smap_group m k.
Proof.
  set (kr := js_to_string (prop (JObj fs) "card_id")).
  set (m1 := match smap_get m kr with Some _ => m | None => smap_set m kr [] end).
  assert (Hm1 : forall k, smap_group m1 k = smap_group m k).
  { intros k. subst m1. destruct (smap_get m kr) eqn:E; [reflexivity|].
    rewrite smap_group_set. destruct (String.eqb k kr) eqn:Ek; [|reflexivity].
    apply String.eqb_eq in Ek. subst k. unfold smap_group. rewrite E. reflexivity. }
  exists (smap_set m1 kr (smap_group m1 kr ++ [stage_entry_of (JObj fs)])%list).
  split; [reflexivity|].
  intros k. rewrite smap_group_set, !Hm1.
  destruct (String.eqb k kr) eqn:Ek; [|reflexivity].
  apply String.eqb_eq in Ek. subst k. reflexivity.
Qed.

Lemma build_stage_map_obj (rows : list (list (string * jsval))) (m : smap) :
  exists m', build_stage_map m (map JObj rows) = Ok m' /\
  forall k, smap_group m' k = (smap_group m k ++ card_group (map JObj rows) k)%list.
Proof.
  revert m. induction rows as [|fs rest IH]; intros m.
  - exists m. split; [reflexivity|]. intros k. unfold card_group. simpl.
    rewrite app_nil_r. reflexivity.
  - destruct (add_stage_row_obj m fs) as [m1 [Hadd Hm1]].
    destruct (IH m1) as [m' [Hb Hm']].
    exists m'. split.
    + cbn [map build_stage_map]. rewrite Hadd. exact Hb.
    + intros k. rewrite Hm', Hm1. unfold card_group. simpl.
      rewrite (String.eqb_sym (js_to_string _) k).
      destruct (String.eqb k _); simpl; [rewrite <- app_assoc|]; reflexivity.
Qed.

Lemma sum_requested_fold (acc : float) (entries : list jsval) :
  (forall e, In e entries -> nullish e = false) ->
  sum_requested acc entries =
    Ok (fold_left (fun a e => PrimFloat.add a (requested_value e)) entries acc).
Proof.
  revert acc. induction entries as [|e rest IH]; intros acc H; [reflexivity|].
  simpl. rewrite (js_get_ok e _ (H e (or_introl eq_refl))). cbn [bind].
  apply IH. intros x Hx. apply H. right. exact Hx.
Qed.

Lemma card_group_objects (rows : list jsval) (k : string) (e : jsval) :
  In e (card_group rows k) -> nullish e = false.
Proof.
  unfold card_group. intros Hin. apply in_map_iff in Hin.
  destruct Hin as [r [<- _]]. reflexivity.
Qed.

Lemma map_res_ok {A B : Type} (f : A -> res B) (g : A -> B) (l : list A) :
  (forall x, In x l -> f x = Ok (g x)) -> map_res f l = Ok (map g l).
Proof.
  induction l as [|x r IH]; intros H; [reflexivity|].
  simpl. rewrite (H x (or_introl eq_refl)). cbn [bind].
  rewrite IH; [reflexivity|]. intros y Hy. apply H. right. exact Hy.
Qed.

(** C5. For card and stage-funding rows (objects, as [pg] returns
    them), every card of the page is returned with [stage_funding] set
    to its rows in table order as [{stage, funding_requested, currency
    (default 'ZEC'), note (default null)}] ([[]] when it has none) and
    [total_funding_requested] set to [toFixed(8)] of the binary64 sum,
    from [0] in row order, of [parseFloat(funding_requested || 0)]; on
    rows 1.5 and 2.25 the total is ["3.75000000"], and a card without
    rows gets [[]] and ["0.00000000"]. *)
Theorem stage_funding_attached (rows cards : list (list (string * jsval))) :
  attach_stage_funding (map JObj rows) (map JObj cards) =
    Ok (map (fun c => expected_card (map JObj rows) (JObj c)) cards) /\
  match attach_stage_funding stage_rows_demo cards_demo with
  | Ok [c1; c2] =>
      prop c1 "total_funding_requested" = JStr "3.75000000" /\
      prop c2 "stage_funding" = JArr [] /\
      prop c2 "total_funding_requested" = JStr "0.00000000"
  | _ => False
  end.
Proof.
  split; [|vm_compute; repeat split; reflexivity].
  unfold attach_stage_funding.
  destruct (build_stage_map_obj rows []) as [m [Hb Hm]].
  rewrite Hb. cbn [bind].
  rewrite <- (map_map JObj (expected_card (map JObj rows))).
  apply map_res_ok. intros x Hx. apply in_map_iff in Hx. destruct Hx as [c [<- _]].
  unfold attach_card, expected_card.
  rewrite (js_get_ok (JObj c) "id" eq_refl). cbn [bind].
  rewrite Hm. cbn [smap_group smap_get app].
  rewrite sum_requested_fold by apply card_group_objects.
  reflexivity.
Qed.

(** C5 fails as stated: the total is a binary64 sum, not the decimal
    one. Rows of 1000000000 and 0.00000001 give ["1000000000.00000000"],
    while their decimal sum to 8 places is ["1000000000.00000001"]. *)
Lemma stage_funding_float_counterexample :
  match attach_stage_funding stage_rows_large [JObj [("id", JStr "c1")]] with
  | Ok [c] => prop c "total_funding_requested" = JStr "1000000000.00000000"
  | _ => False
  end /\
  decimal_sum_fixed8 ["1000000000"; "0.00000001"] = "1000000000.00000001".
Proof. vm_compute. split; reflexivity. Qed.

(* ================================================================== *)
(** * Further properties of the handlers *)

(** ** Filters and parameters of the list queries *)

Lemma numbered_conditions_snoc (i : Z) (fs : list ((string -> string) * qval))
    (pred : string -> string) (x : qval) :
  numbered_conditions i (fs ++ [(pred, x)])%list =
    (numbered_conditions i fs ++ [pred (placeholder (i + Z.of_nat (List.length fs)))])%list.
Proof.
  revert i. induction fs as [|[p v] r IH]; intros i; simpl.
  - rewrite Z.add_0_r. reflexivity.
  - rewrite IH. change (Z.pos (Pos.of_succ_nat (List.length r)))
      with (Z.of_nat (S (List.length r))).
    replace (i + Z.of_nat (S (List.length r))) with (i + 1 + Z.of_nat (List.length r))
      by lia. reflexivity.
Qed.

Lemma add_filter_layout (v : option qval) (pred : string -> string)
    (fs : list ((string -> string) * qval)) :
  add_filter v pred
    {| fs_conditions := "visibility = 'PUBLIC'" :: numbered_conditions 1 fs;
       fs_values := map snd fs;
       fs_idx := 1 + Z.of_nat (List.length fs) |} =
  let fs' := (fs ++ match v with
                    | Some x => if qval_truthy x then [(pred, x)] else []
                    | None => []
                    end)%list in
  {| fs_conditions := "visibility = 'PUBLIC'" :: numbered_conditions 1 fs';
     fs_values := map snd fs';
     fs_idx := 1 + Z.of_nat (List.length fs') |}.
Proof.
  destruct v as [x|]; [destruct (qval_truthy x) eqn:Ht|]; cbn zeta; rewrite ?app_nil_r;
    unfold add_filter; rewrite ?Ht; [|reflexivity|reflexivity].
  rewrite numbered_conditions_snoc, map_app, length_app.
  cbn [fs_conditions fs_values fs_idx List.length map snd app].
  f_equal. lia.
Qed.

Lemma build_filters_shape (q : query) :
  build_filters q =
    {| fs_conditions := "visibility = 'PUBLIC'" :: numbered_conditions 1 (given_filters q);
       fs_values := map snd (given_filters q);
       fs_idx := 1 + Z.of_nat (List.length (given_filters q)) |}.
Proof.
  unfold build_filters.
  change {| fs_conditions := ["visibility = 'PUBLIC'"]; fs_values := []; fs_idx := 1 |}
    with {| fs_conditions := "visibility = 'PUBLIC'" :: numbered_conditions 1 [];
            fs_values := map snd (@nil ((string -> string) * qval));
            fs_idx := 1 + Z.of_nat (List.length (@nil ((string -> string) * qval))) |}.
  rewrite !add_filter_layout. cbn zeta.
  unfold given_filters, filter_preds. cbn [combine flat_map].
  rewrite !app_nil_r, <- !app_assoc. reflexivity.
Qed.

(** The filters of the list handler: the WHERE conditions are
    [visibility = 'PUBLIC'] followed by the predicates of the present
    filters (priority, status, stage, tags, in that order) numbered
    [$1], [$2], ...; the values are those filters' values in the same
    order, and the next placeholder number is one past their count. *)
Theorem build_filters_numbering (q : query) :
  fs_conditions (build_filters q) =
    "visibility = 'PUBLIC'" :: numbered_conditions 1 (given_filters q) /\
  fs_values (build_filters q) = map snd (given_filters q) /\
  fs_idx (build_filters q) = 1 + Z.of_nat (List.length (given_filters q)).
Proof. rewrite build_filters_shape. repeat split. Qed.

(** The parameters of the page query line up with its placeholders:
    parameter [$j] for [j] up to the number of present filters is the
    value of the [j]-th present filter (the one whose condition carries
    [$j]), [$idx] (LIMIT) is [limit] and [$(idx + 1)] (OFFSET) is
    [offset], and there are no other parameters. *)
Theorem page_query_parameters (q : query) :
  let fs := build_filters q in
  let params := (map PQuery (fs_values fs) ++
                 [PNum (JInt (limit_of q)); PNum (offset_of q)])%list in
  List.length params = (Z.to_nat (fs_idx fs) + 1)%nat /\
  (forall j, (j < List.length (given_filters q))%nat ->
     nth_error params j = option_map (fun f => PQuery (snd f)) (nth_error (given_filters q) j)) /\
  nth_error params (Z.to_nat (fs_idx fs) - 1) = Some (PNum (JInt (limit_of q))) /\
  nth_error params (Z.to_nat (fs_idx fs)) = Some (PNum (offset_of q)).
Proof.
  cbn zeta. rewrite build_filters_shape. cbn [fs_values fs_idx].
  replace (Z.to_nat (1 + Z.of_nat (List.length (given_filters q))))
    with (S (List.length (given_filters q))) by lia.
  assert (Hl : List.length (map PQuery (map snd (given_filters q))) =
               List.length (given_filters q)) by (rewrite !length_map; reflexivity).
  repeat split.
  - rewrite length_app, Hl. simpl. lia.
  - intros j Hj. rewrite nth_error_app1 by lia.
    rewrite !nth_error_map. destruct (nth_error (given_filters q) j); reflexivity.
  - replace (S (List.length (given_filters q)) - 1)%nat with (List.length (given_filters q)) by lia.
    rewrite nth_error_app2 by lia. rewrite Hl, Nat.sub_diag. reflexivity.
  - rewrite nth_error_app2 by lia. rewrite Hl.
    replace (S (List.length (given_filters q)) - List.length (given_filters q))%nat with 1%nat
      by lia. reflexivity.
Qed.

(** The page size: [limit] is never 0 and never above 100; it is
    negative exactly when [per_page] parses to a negative integer. *)
Theorem limit_bounds (q : query) :
  limit_of q <= 100 /\ limit_of q <> 0 /\
  (limit_of q < 0 <-> exists z, parse_int10 (per_page_input q) = JInt z /\ z < 0).
Proof.
  pose proof (limit_nonzero q) as Hnz.
  unfold limit_of, or_default in *.
  destruct (parse_int10 (per_page_input q)) as [|z].
  - repeat split; try lia. intros [z [Hz _]]. discriminate.
  - repeat split; try lia.
    + destruct (Z.eqb_spec z 0); intros H; [lia|]. exists z. split; [reflexivity|lia].
    + intros [z' [Hz Hneg]]. injection Hz as <-.
      destruct (Z.eqb_spec z 0); lia.
Qed.

Lemma allow_listed_in (valid : list string) (v : qval) (fb : string) :
  In fb valid -> In (allow_listed valid v fb) valid.
Proof.
  intros Hfb. destruct v as [s| |]; simpl; try exact Hfb.
  destruct (existsb (String.eqb s) valid) eqn:E; [|exact Hfb].
  apply existsb_exists in E. destruct E as [s' [Hin Heq]].
  apply String.eqb_eq in Heq. subst s'. exact Hin.
Qed.

(** The ORDER BY of the page query only ever holds allow-listed text:
    the sort column is one of [validSortBy] and the direction one of
    [validSortDir], whatever the query string holds. *)
Theorem order_by_allow_listed (q : query) :
  In (sortBySafe q) validSortBy /\ In (sortDirSafe q) validSortDir.
Proof.
  split; apply allow_listed_in; simpl; auto.
Qed.

(** ** Failures of the list handler *)

(** The list endpoint answers 500 when the count query rejects or
    returns no row, when the page query rejects, or when the
    stage-funding query rejects. *)
Theorem list_cards_server_error (db : database) (q : query) :
  let fs := build_filters q in
  (exists e, db (count_sql (whereClause q)) (map PQuery (fs_values fs)) = Throw e) \/
  db (count_sql (whereClause q)) (map PQuery (fs_values fs)) = Ok [] \/
  (exists e, db (page_sql (whereClause q) (sortBySafe q) (sortDirSafe q) (fs_idx fs))
                (map PQuery (fs_values fs) ++
                 [PNum (JInt (limit_of q)); PNum (offset_of q)])%list = Throw e) \/
  (exists e, db stage_funding_sql [] = Throw e) ->
  list_cards db q = ListServerError.
Proof.
  cbn zeta. intros H.
  unfold list_cards, list_cards_body, total_rows_of. cbn zeta.
  destruct (db (count_sql (whereClause q)) (map PQuery (fs_values (build_filters q))))
    as [rows|e] eqn:Hc; cbn [bind]; [|reflexivity].
  destruct rows as [|r0 rows].
  { reflexivity. }
  destruct H as [[e He]|[He|H]]; [congruence|discriminate|].
  destruct (js_get (nth 0 (r0 :: rows) JUndef) "count") as [c|e]; cbn [bind]; [|reflexivity].
  destruct (db (page_sql (whereClause q) (sortBySafe q) (sortDirSafe q) (fs_idx (build_filters q)))
       (map PQuery (fs_values (build_filters q)) ++
        [PNum (JInt (limit_of q)); PNum (offset_of q)])%list) as [result|e] eqn:Hp;
    cbn [bind]; [|reflexivity].
  destruct H as [[e He]|[e He]]; [congruence|].
  rewrite He. reflexivity.
Qed.

Lemma list_cards_server_error_witness :
  list_cards db_down empty_query = ListServerError.
Proof.
  apply (list_cards_server_error db_down empty_query).
  left. eexists. reflexivity.
Defined.

(** ** The cards of a page keep their fields *)

Lemma assoc_get_set (fs : list (string * jsval)) (k k' : string) (x : jsval) :
  assoc_get (assoc_set fs k x) k' = if String.eqb k' k then Some x else assoc_get fs k'.
Proof.
  induction fs as [|[k0 v0] r IH]; simpl.
  - destruct (String.eqb k' k); reflexivity.
  - destruct (String.eqb k k0) eqn:E.
    + apply String.eqb_eq in E. subst k0. simpl.
      destruct (String.eqb k' k); reflexivity.
    + simpl. rewrite IH.
      destruct (String.eqb k' k0) eqn:E'; [|reflexivity].
      apply String.eqb_eq in E'. subst k'.
      rewrite String.eqb_sym, E. reflexivity.
Qed.

Lemma prop_obj (fs : list (string * jsval)) (k : string) :
  prop (JObj fs) k = match assoc_get fs k with Some x => x | None => JUndef end.
Proof. reflexivity. Qed.

Lemma prop_assoc_set_other (fs : list (string * jsval)) (k k' : string) (x : jsval) :
  k' <> k -> prop (JObj (assoc_set fs k x)) k' = prop (JObj fs) k'.
Proof.
  intros Hne. rewrite !prop_obj, assoc_get_set.
  destruct (String.eqb_spec k' k); [contradiction|reflexivity].
Qed.

Lemma map_res_nth {A B : Type} (f : A -> res B) (l : list A) (l' : list B) :
  map_res f l = Ok l' ->
  List.length l' = List.length l /\
  forall i x, nth_error l i = Some x -> exists y, nth_error l' i = Some y /\ f x = Ok y.
Proof.
  revert l'. induction l as [|x r IH]; intros l' H.
  - injection H as <-. split; [reflexivity|]. intros [|i] y Hy; discriminate.
  - simpl in H. destruct (f x) as [y|e] eqn:Hf; cbn [bind] in H; [|discriminate].
    destruct (map_res f r) as [ys|e] eqn:Hr; cbn [bind] in H; [|discriminate].
    injection H as <-. destruct (IH ys eq_refl) as [Hlen Hn].
    split; [simpl; rewrite Hlen; reflexivity|].
    intros [|i] z Hz; simpl in Hz.
    + injection Hz as <-. exists y. split; [reflexivity|exact Hf].
    + exact (Hn i z Hz).
Qed.

Lemma attach_card_obj (m : smap) (fs : list (string * jsval)) (c : jsval) :
  attach_card m (JObj fs) = Ok c ->
  exists b, c = JObj (assoc_set (assoc_set fs "stage_funding"
                       (JArr (smap_group m (js_to_string (prop (JObj fs) "id")))))
                       "total_funding_requested" b).
Proof.
  unfold attach_card. rewrite (js_get_ok (JObj fs) "id" eq_refl). cbn [bind].
  destruct (sum_requested zero _) as [t|e]; cbn [bind]; [|discriminate].
  intros H. injection H as <-. eauto.
Qed.

(** The list endpoint neither drops, adds nor reorders cards: a page
    has as many cards as the page query returned rows, and the card at
    each position keeps every field of its row except [stage_funding]
    and [total_funding_requested], which the handler sets. *)
Theorem list_cards_keeps_rows (db : database) (q : query) cp pp tp cards :
  list_cards db q = ListPage cp pp tp cards ->
  exists rows,
    db (page_sql (whereClause q) (sortBySafe q) (sortDirSafe q) (fs_idx (build_filters q)))
       (map PQuery (fs_values (build_filters q)) ++
        [PNum (JInt (limit_of q)); PNum (offset_of q)])%list = Ok rows /\
    List.length cards = List.length rows /\
    forall i fs, nth_error rows i = Some (JObj fs) ->
      exists c, nth_error cards i = Some c /\
        forall k, k <> "stage_funding" -> k <> "total_funding_requested" ->
          prop c k = prop (JObj fs) k.
Proof.
  intros H. destruct (list_cards_page_inv db q cp pp tp cards H)
    as [n [rows [sfr [_ [Hp [Ha _]]]]]].
  exists rows. split; [exact Hp|].
  unfold attach_stage_funding in Ha.
  destruct (build_stage_map [] sfr) as [m|e]; cbn [bind] in Ha; [|discriminate].
  destruct (map_res_nth _ _ _ Ha) as [Hlen Hn].
  split; [exact Hlen|].
  intros i fs Hi. destruct (Hn i (JObj fs) Hi) as [c [Hc Hac]].
  exists c. split; [exact Hc|].
  destruct (attach_card_obj m fs c Hac) as [b ->].
  intros k Hk1 Hk2.
  rewrite (prop_assoc_set_other _ _ _ _ Hk2), (prop_assoc_set_other _ _ _ _ Hk1).
  reflexivity.
Qed.

Lemma list_cards_keeps_rows_witness :
  exists rows,
    fixed_db (page_sql (whereClause empty_query) (sortBySafe empty_query)
                (sortDirSafe empty_query) (fs_idx (build_filters empty_query)))
       (map PQuery (fs_values (build_filters empty_query)) ++
        [PNum (JInt (limit_of empty_query)); PNum (offset_of empty_query)])%list = Ok rows /\
    List.length rows = 1%nat.
Proof.
  destruct (list_cards_keeps_rows fixed_db empty_query (JInt 1) 10 (JInt 0)
              [JObj [("count", JStr "0");
                     ("stage_funding",
                      JArr [JObj [("stage", JUndef); ("funding_requested", JUndef);
                                  ("currency", JStr "ZEC"); ("note", JNull)]]);
                     ("total_funding_requested", JStr "0.00000000")]])
    as [rows [Hrows [Hlen _]]].
  - vm_compute. reflexivity.
  - exists rows. split; [exact Hrows|]. rewrite <- Hlen. reflexivity.
Defined.

(** ** Reading the count *)

Lemma digit_char_ok (d : Z) :
  0 <= d <= 9 -> is_digit (digit_char d) = true /\ digit_val (digit_char d) = d.
Proof.
  intros Hd. unfold is_digit, digit_val, digit_char.
  rewrite Ascii.nat_ascii_embedding by lia.
  split; [apply andb_true_intro; split; apply Nat.leb_le; lia | lia].
Qed.

Lemma digits_value_snoc (ds : list ascii) (c : ascii) :
  digits_value (ds ++ [c])%list = digits_value ds * 10 + digit_val c.
Proof. unfold digits_value. rewrite fold_left_app. reflexivity. Qed.

Lemma dec_digits_spec (f : nat) (z : Z) (acc : string) :
  0 <= z < 10 ^ Z.of_nat (S f) ->
  exists ds, list_ascii_of_string (dec_digits (S f) z acc) =
               (ds ++ list_ascii_of_string acc)%list /\
             ds <> [] /\ forallb is_digit ds = true /\ digits_value ds = z.
Proof.
  revert z acc. induction f as [|f IH]; intros z acc Hz.
  - simpl in Hz. cbn [dec_digits]. replace (z <? 10) with true by lia.
    destruct (digit_char_ok z ltac:(lia)) as [Hd Hv].
    exists [digit_char z]. repeat split; [discriminate| |].
    + cbn [forallb]. rewrite Hd. reflexivity.
    + unfold digits_value. cbn [fold_left]. rewrite Hv. lia.
  - change (dec_digits (S (S f)) z acc) with
      (if z <? 10 then String (digit_char z) acc
       else dec_digits (S f) (z / 10) (String (digit_char (z mod 10)) acc)).
    destruct (z <? 10) eqn:Hlt.
    + apply Z.ltb_lt in Hlt.
      destruct (digit_char_ok z ltac:(lia)) as [Hd Hv].
      exists [digit_char z]. repeat split; [discriminate| |].
      * cbn [forallb]. rewrite Hd. reflexivity.
      * unfold digits_value. cbn [fold_left]. rewrite Hv. lia.
    + apply Z.ltb_ge in Hlt.
      assert (Hz' : 0 <= z / 10 < 10 ^ Z.of_nat (S f)).
      { split; [apply Z.div_pos; lia|].
        apply Z.div_lt_upper_bound; [lia|].
        replace (10 * 10 ^ Z.of_nat (S f)) with (10 ^ Z.of_nat (S (S f))); [lia|].
        rewrite !Nat2Z.inj_succ, (Z.pow_succ_r 10 (Z.succ (Z.of_nat f))); lia. }
      destruct (IH (z / 10) (String (digit_char (z mod 10)) acc) Hz')
        as [ds [Hl [Hne [Hall Hv]]]].
      pose proof (Z.mod_pos_bound z 10 ltac:(lia)) as Hm.
      destruct (digit_char_ok (z mod 10) ltac:(lia)) as [Hd Hdv].
      exists (ds ++ [digit_char (z mod 10)])%list. repeat split.
      * rewrite Hl, <- app_assoc. reflexivity.
      * destruct ds; [contradiction|discriminate].
      * rewrite forallb_app, Hall. cbn [forallb]. rewrite Hd. reflexivity.
      * rewrite digits_value_snoc, Hv, Hdv. pose proof (Z.div_mod z 10). lia.
Qed.

Lemma dec_digits_fuel (z : Z) :
  0 <= z -> 0 <= z < 10 ^ Z.of_nat (S (Z.to_nat (Z.log2 z))).
Proof.
  intros Hz. split; [exact Hz|].
  rewrite Nat2Z.inj_succ, Z2Nat.id by apply Z.log2_nonneg.
  destruct (Z.eq_dec z 0) as [->|Hnz]; [simpl; lia|].
  destruct (Z.log2_spec z ltac:(lia)) as [_ Hup].
  eapply Z.lt_le_trans; [exact Hup|].
  apply Z.pow_le_mono_l. split; [lia|lia].
Qed.







(** ** The detail response *)

Lemma truthy_not_nullish (v : jsval) : js_truthy v = true -> nullish v = false.
Proof. destruct v; simpl; congruence. Qed.

Lemma respond_card_obj (net : network) (c : list (string * jsval)) :
  exists r, respond_card net (JObj c) = Ok r /\
    (r = DetailCard (JObj c) \/ (exists wi, r = DetailCardWallet (JObj c) wi) \/
     r = DetailCardWalletError (JObj c)).
Proof.
  unfold respond_card. rewrite (js_get_ok (JObj c) "wallet_addresses" eq_refl). cbn [bind].
  destruct (js_truthy (prop (JObj c) "wallet_addresses")) eqn:Ht; [|eauto].
  rewrite (js_get_ok _ "length" (truthy_not_nullish _ Ht)). cbn [bind].
  destruct (PrimFloat.ltb zero _); [|eauto].
  destruct (fetchWalletInfo net (prop (JObj c) "wallet_addresses")) as [wi|e];
    cbn [bind try_catch]; eauto 6.
Qed.

(** A card found by the detail endpoint is answered with status 200 and
    every field of the card row unchanged; only [wallet_info] or
    [wallet_info_error] may be added. The endpoint never answers 404 or
    500 once the query has returned a card. *)
Theorem card_detail_keeps_fields (db : database) (net : network) (id : string) c rest :
  db detail_sql [PStr id] = Ok (JObj c :: rest) ->
  fst (detail_http (card_detail db net id)) = 200 /\
  forall k, k <> "wallet_info" -> k <> "wallet_info_error" ->
    prop (snd (detail_http (card_detail db net id))) k = prop (JObj c) k.
Proof.
  intros Hdb. unfold card_detail. rewrite Hdb.
  destruct (respond_card_obj net c) as [r [Hr Hcases]]. rewrite Hr.
  destruct Hcases as [->|[[wi ->]| ->]]; cbn [detail_http fst snd js_spread];
    (split; [reflexivity|]); intros k Hk1 Hk2; try reflexivity;
    apply prop_assoc_set_other; assumption.
Qed.

Lemma card_detail_keeps_fields_witness :
  fst (detail_http (card_detail db_demo net_demo "c1")) = 200 /\
  prop (snd (detail_http (card_detail db_demo net_demo "c1"))) "id" = JStr "c1".
Proof.
  destruct (card_detail_keeps_fields db_demo net_demo "c1"
              [("id", JStr "c1"); ("visibility", JStr "PUBLIC");
               ("wallet_addresses", JArr [JStr "t1a"; JStr "t1b"])] [] eq_refl)
    as [Hs Hk].
  split; [exact Hs|]. rewrite Hk; [reflexivity|discriminate|discriminate].
Defined.

(** A card whose [wallet_addresses] is falsy ([null], missing, empty
    string) or an empty array is returned as it is, and the address
    service is never asked: the answer is the same for every network. *)
Theorem card_detail_without_wallet (db : database) (id : string) c rest :
  db detail_sql [PStr id] = Ok (JObj c :: rest) ->
  js_truthy (prop (JObj c) "wallet_addresses") = false \/
  prop (JObj c) "wallet_addresses" = JArr [] ->
  forall net, card_detail db net id = DetailCard (JObj c).
Proof.
  intros Hdb Hwa net. unfold card_detail. rewrite Hdb.
  unfold respond_card. rewrite (js_get_ok (JObj c) "wallet_addresses" eq_refl). cbn [bind].
  destruct Hwa as [Hwa|Hwa]; rewrite Hwa; [reflexivity|].
  vm_compute. reflexivity.
Qed.

Lemma card_detail_without_wallet_witness :
  card_detail db_no_wallet net_demo "c3" =
    DetailCard (JObj [("id", JStr "c3"); ("visibility", JStr "PUBLIC");
                      ("wallet_addresses", JArr [])]).
Proof.
  apply (card_detail_without_wallet db_no_wallet "c3"
           [("id", JStr "c3"); ("visibility", JStr "PUBLIC"); ("wallet_addresses", JArr [])] []).
  - reflexivity.
  - right. reflexivity.
Defined.

(** ** The shape of [toFixed(8)] *)

Lemma float_ratio_bounds (x : float) neg p q :
  float_ratio x = Some (neg, p, q) -> 0 <= p /\ 0 < q.
Proof.
  unfold float_ratio. destruct (Prim2SF x) as [s|s| |s m e]; try discriminate.
  - intros H. injection H as <- <- <-. lia.
  - destruct (0 <=? e) eqn:He; intros H.
    + apply Z.leb_le in He.
      assert (Hpow : 0 < 2 ^ e) by (apply Z.pow_pos_nonneg; lia).
      assert (Hp : 0 <= Z.pos m * 2 ^ e) by nia.
      injection H as <- <- <-. split; [exact Hp|lia].
    + apply Z.leb_gt in He.
      assert (Hpow : 0 < 2 ^ (- e)) by (apply Z.pow_pos_nonneg; lia).
      injection H as <- <- <-. split; [lia|exact Hpow].
Qed.

Lemma list_ascii_of_string_append (a b : string) :
  list_ascii_of_string (append a b) = (list_ascii_of_string a ++ list_ascii_of_string b)%list.
Proof. induction a as [|c a IH]; simpl; [reflexivity|]. rewrite IH. reflexivity. Qed.

Lemma length_string_append (a b : string) :
  String.length (append a b) = (String.length a + String.length b)%nat.
Proof. induction a as [|c a IH]; simpl; [reflexivity|]. rewrite IH. reflexivity. Qed.

Lemma substring_length (s : string) (n m : nat) :
  (n + m <= String.length s)%nat -> String.length (substring n m s) = m.
Proof.
  revert n m. induction s as [|c s IH]; intros n m H.
  - simpl in H. assert (n = 0%nat) by lia. assert (m = 0%nat) by lia. subst. reflexivity.
  - destruct n as [|n]; destruct m as [|m]; simpl in *; try reflexivity.
    + rewrite IH; [reflexivity|lia].
    + apply IH. lia.
    + apply IH. lia.
Qed.

Lemma substring_digits (s : string) (n m : nat) :
  forallb is_digit (list_ascii_of_string s) = true ->
  forallb is_digit (list_ascii_of_string (substring n m s)) = true.
Proof.
  revert n m. induction s as [|c s IH]; intros n m H.
  - destruct n, m; reflexivity.
  - cbn [list_ascii_of_string forallb] in H. apply andb_true_iff in H. destruct H as [Hc Hs].
    destruct n as [|n]; destruct m as [|m]; cbn [substring]; try reflexivity.
    + cbn [list_ascii_of_string forallb]. rewrite Hc. apply IH. exact Hs.
    + apply IH. exact Hs.
    + apply IH. exact Hs.
Qed.

Lemma zeros_digits (n : nat) :
  forallb is_digit (list_ascii_of_string (zeros n)) = true /\ String.length (zeros n) = n.
Proof.
  induction n as [|n [IH1 IH2]]; [split; reflexivity|].
  cbn [zeros list_ascii_of_string forallb String.length]. rewrite IH1, IH2.
  split; reflexivity.
Qed.

Lemma Z_to_dec_digits (n : Z) :
  0 <= n -> forallb is_digit (list_ascii_of_string (Z_to_dec n)) = true.
Proof.
  intros Hn. unfold Z_to_dec. replace (n <? 0) with false by lia.
  rewrite Nat.add_1_r.
  destruct (dec_digits_spec _ n EmptyString (dec_digits_fuel n Hn)) as [ds [Hl [_ [Hall _]]]].
  rewrite Hl, app_nil_r. exact Hall.
Qed.

(** [toFixed(8)] of a finite number below [10^21] in magnitude (its
    exact value [p / q] read by [float_ratio]) is an optional minus
    sign, a non-empty run of digits, a point and exactly eight digits:
    the shape of every [total_funding_requested] below [10^21]. *)
Theorem to_fixed8_shape (x : float) neg p q :
  float_ratio x = Some (neg, p, q) -> p < 10 ^ 21 * q ->
  exists sign ip fp,
    to_fixed8 x = append sign (append ip (String "." fp)) /\
    (sign = EmptyString \/ sign = "-") /\
    ip <> EmptyString /\ String.length fp = 8%nat /\
    forallb is_digit (list_ascii_of_string ip) = true /\
    forallb is_digit (list_ascii_of_string fp) = true.
Proof.
  intros Hr Hlt. destruct (float_ratio_bounds x neg p q Hr) as [Hp Hq].
  unfold to_fixed8. rewrite Hr. replace (10 ^ 21 * q <=? p) with false by lia.
  unfold fixed8_digits.
  set (n := (2 * p * 10 ^ 8 + q) / (2 * q)).
  assert (Hn : 0 <= n) by (apply Z.div_pos; nia).
  set (m := Z_to_dec n).
  assert (Hm : forallb is_digit (list_ascii_of_string m) = true) by apply Z_to_dec_digits, Hn.
  set (m' := if (String.length m <=? 8)%nat then append (zeros (9 - String.length m)) m else m).
  assert (Hm' : forallb is_digit (list_ascii_of_string m') = true /\ (9 <= String.length m')%nat).
  { subst m'. destruct (String.length m <=? 8)%nat eqn:Hlen.
    - apply Nat.leb_le in Hlen. destruct (zeros_digits (9 - String.length m)) as [Hz Hzl].
      rewrite list_ascii_of_string_append, forallb_app, Hz, Hm, length_string_append, Hzl.
      split; [reflexivity|lia].
    - apply Nat.leb_gt in Hlen. split; [exact Hm|lia]. }
  destruct Hm' as [Hd Hl].
  exists (if neg && negb (p =? 0) then "-" else EmptyString),
    (substring 0 (String.length m' - 8) m'), (substring (String.length m' - 8) 8 m').
  split; [reflexivity|].
  split; [destruct (neg && negb (p =? 0)); auto|].
  split.
  { intros He. assert (Hlen : String.length (substring 0 (String.length m' - 8) m') =
                              (String.length m' - 8)%nat) by (apply substring_length; lia).
    rewrite He in Hlen. simpl in Hlen. lia. }
  split; [apply substring_length; lia|].
  split; apply substring_digits; exact Hd.
Qed.

Lemma to_fixed8_shape_witness :
  exists sign ip fp,
    to_fixed8 3.75 = append sign (append ip (String "." fp)) /\
    (sign = EmptyString \/ sign = "-") /\
    ip <> EmptyString /\ String.length fp = 8%nat /\
    forallb is_digit (list_ascii_of_string ip) = true /\
    forallb is_digit (list_ascii_of_string fp) = true.
Proof.
  apply (to_fixed8_shape 3.75 false 8444249301319680 2251799813685248).
  - vm_compute. reflexivity.
  - lia.
Defined.

(** ** Currency and note of the stage-funding entries *)

Lemma selected_columns_no_currency (fs : list (string * jsval)) :
  only_selected_columns fs = true ->
  assoc_get fs "currency" = None /\ assoc_get fs "note" = None.
Proof.
  induction fs as [|[k v] r IH]; intros H; [split; reflexivity|].
  cbn [only_selected_columns forallb] in *. unfold only_selected_columns in *.
  cbn [forallb] in H. apply andb_true_iff in H. destruct H as [Hk Hr].
  destruct (IH Hr) as [Hc Hn]. cbn [assoc_get]. rewrite Hc, Hn.
  cbn [existsb] in Hk.
  destruct (String.eqb_spec k "card_id") as [->|_]; [split; reflexivity|].
  destruct (String.eqb_spec k "stage") as [->|_]; [split; reflexivity|].
  destruct (String.eqb_spec k "funding_requested") as [->|_]; [split; reflexivity|].
  discriminate.
Qed.

(** The stage-funding query selects no [currency] and no [note] column,
    so every entry of every card's [stage_funding] has [currency]
    ['ZEC'] and [note] [null]: the row values the handler reads for
    them are always missing. *)
Theorem stage_entries_default_currency (rows cards : list (list (string * jsval)))
    (out : list jsval) :
  forallb only_selected_columns rows = true ->
  attach_stage_funding (map JObj rows) (map JObj cards) = Ok out ->
  forall c, In c out ->
    exists l, prop c "stage_funding" = JArr l /\
      forall e, In e l -> prop e "currency" = JStr "ZEC" /\ prop e "note" = JNull.
Proof.
  intros Hrows Ha c Hc.
  unfold attach_stage_funding in Ha.
  destruct (build_stage_map_obj rows []) as [m [Hb Hm]].
  rewrite Hb in Ha. cbn [bind] in Ha.
  destruct (map_res_nth _ _ _ Ha) as [Hlen Hn].
  apply In_nth_error in Hc. destruct Hc as [i Hi].
  assert (Hi' : (i < List.length (map JObj cards))%nat).
  { rewrite <- Hlen. apply nth_error_Some. rewrite Hi. discriminate. }
  apply nth_error_Some in Hi'. rewrite nth_error_map in Hi'.
  destruct (nth_error cards i) as [fs|] eqn:Hcs; [|contradiction].
  assert (Hx : nth_error (map JObj cards) i = Some (JObj fs))
    by (rewrite nth_error_map, Hcs; reflexivity).
  destruct (Hn i (JObj fs) Hx) as [y [Hy Hay]].
  rewrite Hi in Hy. injection Hy as <-.
  destruct (attach_card_obj m fs c Hay) as [b ->].
  eexists. split.
  { rewrite prop_obj, !assoc_get_set. reflexivity. }
  intros e He. rewrite Hm in He. cbn [smap_group smap_get app] in He.
  unfold card_group in He. apply in_map_iff in He. destruct He as [r [<- Hr]].
  apply filter_In in Hr. destruct Hr as [Hr _].
  apply in_map_iff in Hr. destruct Hr as [fs' [<- Hfs']].
  rewrite forallb_forall in Hrows.
  destruct (selected_columns_no_currency fs' (Hrows fs' Hfs')) as [Hc Hn'].
  unfold stage_entry_of. rewrite (prop_obj fs' "currency"), (prop_obj fs' "note"), Hc, Hn'.
  split; reflexivity.
Qed.

Lemma stage_entries_default_currency_witness :
  match attach_stage_funding
          (map JObj [[("card_id", JStr "c1"); ("stage", JStr "DESIGN");
                      ("funding_requested", JStr "1.5")]])
          (map JObj [[("id", JStr "c1")]]) with
  | Ok out => forall c, In c out ->
      exists l, prop c "stage_funding" = JArr l /\
        forall e, In e l -> prop e "currency" = JStr "ZEC" /\ prop e "note" = JNull
  | Throw _ => False
  end.
Proof.
  destruct (attach_stage_funding _ _) as [out|e] eqn:E.
  - apply (stage_entries_default_currency
             [[("card_id", JStr "c1"); ("stage", JStr "DESIGN"); ("funding_requested", JStr "1.5")]]
             [[("id", JStr "c1")]] out); [reflexivity|exact E].
  - vm_compute in E. discriminate.
Defined.
